(** * Harmony service selection and local invocation

    A shallow embedding of three modules of the Harmony front end:

    - the service chooser ([chooseServiceConfig], [buildService], the
      filter stages they drive, [isCollectionSupported] and the loading of
      the service configuration),
    - the local Docker adapter ([LocalDockerService._invokeAsync] and its
      exit listener), and
    - the granule locator middleware ([cmrGranuleLocator]).

    JavaScript objects that the code mutates (the operation under selection,
    the module-level [noOpService] constant, the logger) live in an explicit
    world that every effectful function threads; exceptions are an outcome of
    a computation, and the world reached at the point of a [throw] is kept,
    as it is in JavaScript. *)

From Stdlib Require Import List String Ascii Bool ZArith Lia DecimalString.
From Stdlib Require Import Permutation.
Import ListNotations.

Local Open Scope list_scope.
Local Open Scope string_scope.

(* ================================================================== *)
(** ** JavaScript values used by the code *)
(* ================================================================== *)

Module Js.

(** Truthiness of a [string | undefined] value: [undefined] and the empty
    string are falsy. The result carries the string when it is truthy. *)
Definition truthy (v : option string) : option string :=
  match v with
  | Some s => if (s =? "")%string then None else Some s
  | None => None
  end.

Definition isTruthy (v : option string) : bool :=
  match truthy v with Some _ => true | None => false end.

(** [arr && arr.length > 0] for an [Array | undefined] value. *)
Definition nonEmpty {A} (v : option (list A)) : bool :=
  match v with
  | Some (_ :: _) => true
  | _ => false
  end.

(** [Array.prototype.join] on an array of strings. *)
Fixpoint join (sep : string) (items : list string) : string :=
  match items with
  | [] => ""
  | [x] => x
  | x :: rest => x ++ sep ++ join sep rest
  end.

(** [String.prototype.includes], as a proposition. *)
Definition includes (s sub : string) : Prop :=
  exists pre post, s = pre ++ sub ++ post.

(** [s.startsWith(p)] and the remainder of [s] after [p]. *)
Fixpoint stripPrefix (p s : string) : option string :=
  match p, s with
  | EmptyString, _ => Some s
  | String a p', String b s' =>
      if Ascii.eqb a b then stripPrefix p' s' else None
  | String _ _, EmptyString => None
  end.

(** [s.replace(pattern, replacement)] with a string pattern: the first
    occurrence only. The replacement is taken literally (no [$] pattern is
    interpreted, which is what JavaScript does for a replacement without
    a dollar sign). *)
Fixpoint replace (pattern replacement s : string) : string :=
  match stripPrefix pattern s with
  | Some rest => replacement ++ rest
  | None =>
      match s with
      | EmptyString => EmptyString
      | String c s' => String c (replace pattern replacement s')
      end
  end.

(** Template-literal rendering of a [number | null]. *)
Definition showNumber (n : option Z) : string :=
  match n with
  | Some z => NilZero.string_of_int (Z.to_int z)
  | None => "null"
  end.

(** Template-literal rendering of a [string | null]. *)
Definition showString (s : option string) : string :=
  match s with
  | Some v => v
  | None => "null"
  end.

End Js.

(* ================================================================== *)
(** ** Exceptions and outcomes *)
(* ================================================================== *)

(** The error classes that appear in the two modules. [UnsupportedOperation]
    is the class declared by the chooser; [Error] stands for any other
    error object. *)
Inductive Exn : Type :=
| UnsupportedOperation (message : string)
| NotFoundError (message : string)
| TypeError (message : string)
| Error (message : string).

(** [e instanceof UnsupportedOperation] *)
Definition instanceofUnsupportedOperation (e : Exn) : bool :=
  match e with
  | UnsupportedOperation _ => true
  | _ => false
  end.

Definition exnMessage (e : Exn) : string :=
  match e with
  | UnsupportedOperation m | NotFoundError m | TypeError m | Error m => m
  end.

Inductive Outcome (A : Type) : Type :=
| Return (a : A)
| Throw (e : Exn).

Arguments Return {A} a.
Arguments Throw {A} e.

(* ================================================================== *)
(** ** Data model *)
(* ================================================================== *)

(** One source of an operation: a collection id, the variables requested on
    it (possibly absent) and the granules attached by the granule locator. *)
Record Source : Type := mkSource {
  collection : string;
  variables : option (list string);
  granules : list string
}.

(** The fields of [DataOperation] that the two modules read or write, and
    two that they leave alone ([temporal], [granuleIds]). The coordinates of
    [boundingRectangle] are never inspected: only its presence is. *)
Record DataOperation : Type := mkDataOperation {
  sources : list Source;
  outputFormat : option string;
  boundingRectangle : option (list Z);
  temporal : option (string * string);
  granuleIds : list string;
  callback : string
}.

Definition setOutputFormat (fmt : string) (op : DataOperation) : DataOperation :=
  {| sources := sources op;
     outputFormat := Some fmt;
     boundingRectangle := boundingRectangle op;
     temporal := temporal op;
     granuleIds := granuleIds op;
     callback := callback op |}.

Definition setCallback (cb : string) (op : DataOperation) : DataOperation :=
  {| sources := sources op;
     outputFormat := outputFormat op;
     boundingRectangle := boundingRectangle op;
     temporal := temporal op;
     granuleIds := granuleIds op;
     callback := cb |}.

Definition setSources (ss : list Source) (op : DataOperation) : DataOperation :=
  {| sources := ss;
     outputFormat := outputFormat op;
     boundingRectangle := boundingRectangle op;
     temporal := temporal op;
     granuleIds := granuleIds op;
     callback := callback op |}.

(** [RequestContext]: the caller's acceptable mime types in preference
    order; the field may be absent. *)
Record RequestContext : Type := mkRequestContext {
  requestedMimeTypes : option (list string)
}.

(** [serviceConfig.type] *)
Record ServiceType : Type := mkServiceType {
  typeName : string;
  synchronous_only : bool;
  single_granule_requests : bool
}.

(** [serviceConfig.capabilities]. The chooser reads these three paths with
    [getIn(config, path, default)]; an absent path reads as its default
    ([[]] for [output_formats], [false] for the two flags), so the record
    holds the value that [getIn] returns. *)
Record Capabilities : Type := mkCapabilities {
  output_formats : list string;
  subsetting_variable : bool;
  subsetting_bbox : bool
}.

(** Modelled from the spec: the [ServiceConfig] interface is declared in
    [./base-service], which is not among the sources. A configured
    capability descriptor has "a name, an execution mechanism tag, the set
    of collections it may serve, and a capabilities record"; the field names
    are those the chooser reads. *)
Record ServiceConfig : Type := mkServiceConfig {
  name : string;
  type : ServiceType;
  collections : list string;
  capabilities : Capabilities
}.

(** The object bound to the module-level constant [noOpService]. It has no
    [collections]; its [message] is the one field the chooser assigns. *)
Record NoOpServiceConfig : Type := mkNoOpServiceConfig {
  noOpName : string;
  noOpType : ServiceType;
  noOpOutputFormats : list string;
  message : option string
}.

(** [const noOpService = { name: 'noOpService', type: { name: 'noOp' },
    capabilities: { output_formats: ['application/json'] } }] *)
Definition noOpServiceInitial : NoOpServiceConfig :=
  {| noOpName := "noOpService";
     noOpType := {| typeName := "noOp";
                    synchronous_only := false;
                    single_granule_requests := false |};
     noOpOutputFormats := ["application/json"];
     message := None |}.

Definition setMessage (m : string) (c : NoOpServiceConfig) : NoOpServiceConfig :=
  {| noOpName := noOpName c;
     noOpType := noOpType c;
     noOpOutputFormats := noOpOutputFormats c;
     message := Some m |}.

(** A reference to a descriptor object, as [chooseServiceConfig] returns
    it: one of the candidates it was given, or the [noOpService]
    singleton. *)
Inductive ConfigRef : Type :=
| Candidate (config : ServiceConfig)
| NoOpServiceRef.

(* ================================================================== *)
(** ** The world and the effect monad *)
(* ================================================================== *)

(** The mutable objects reachable from the chooser: the operation passed
    to it (by reference), the [noOpService] singleton, and the lines written
    to the logger. *)
Record World : Type := mkWorld {
  operation : DataOperation;
  noOpService : NoOpServiceConfig;
  logged : list string
}.

Definition M (A : Type) : Type := World -> Outcome A * World.

Definition ret {A} (a : A) : M A := fun w => (Return a, w).

Definition throw {A} (e : Exn) : M A := fun w => (Throw e, w).

Definition bind {A B} (c : M A) (k : A -> M B) : M B :=
  fun w =>
    match c w with
    | (Return a, w') => k a w'
    | (Throw e, w') => (Throw e, w')
    end.

(** [try { body } catch (e) { handler(e) }] *)
Definition tryCatch {A} (body : M A) (handler : Exn -> M A) : M A :=
  fun w =>
    match body w with
    | (Return a, w') => (Return a, w')
    | (Throw e, w') => handler e w'
    end.

Declare Scope js_scope.
Delimit Scope js_scope with js.
Notation "x <- c ;; k" := (bind c (fun x => k))
  (at level 61, c at next level, right associativity) : js_scope.
Notation "c ;; k" := (bind c (fun _ => k))
  (at level 61, right associativity) : js_scope.
Local Open Scope js_scope.

Definition getOperation : M DataOperation :=
  fun w => (Return (operation w), w).

(** [operation.outputFormat = fmt] *)
Definition assignOutputFormat (fmt : string) : M unit :=
  fun w => (Return tt,
            {| operation := setOutputFormat fmt (operation w);
               noOpService := noOpService w;
               logged := logged w |}).

(** [noOpService.message = m] *)
Definition assignNoOpMessage (m : string) : M unit :=
  fun w => (Return tt,
            {| operation := operation w;
               noOpService := setMessage m (noOpService w);
               logged := logged w |}).

(** [logger.info(line)] *)
Definition loggerInfo (line : string) : M unit :=
  fun w => (Return tt,
            {| operation := operation w;
               noOpService := noOpService w;
               logged := (logged w ++ [line])%list |}).

(* ================================================================== *)
(** ** Imported helpers *)
(* ================================================================== *)

(** The two helpers the chooser imports from [util/content-negotiation] and
    [util/string]; neither module is among the sources, so the chooser is
    embedded over any implementation of them. *)
Class Imports : Type := mkImports {
  isMimeTypeAccepted : string -> string -> bool;
  listToText : list string -> string
}.

(* ================================================================== *)
(** ** The service chooser *)
(* ================================================================== *)

Section Chooser.

Context `{Imports}.

(** A filter stage: [(operation, context, configs) => configs], where the
    operation is the object held by the world. *)
Definition FilterFn : Type :=
  RequestContext -> list ServiceConfig -> M (list ServiceConfig).

(** [operation.sources.every((source) =>
      serviceConfig.collections.includes(source.collection))] *)
Definition isCollectionMatch
    (operation : DataOperation) (serviceConfig : ServiceConfig) : bool :=
  forallb
    (fun source =>
       existsb (String.eqb (collection source)) (collections serviceConfig))
    (sources operation).

(** [supportedFormats.find((f) => isMimeTypeAccepted(f, format))]:
    the first declared format that the mime type accepts, if any. *)
Definition findAccepted (supportedFormats : list string) (format : string)
  : option string :=
  find (fun f => isMimeTypeAccepted f format) supportedFormats.

(** [configs.filter(...)] keeps a config when the value found is truthy. *)
Definition selectServicesForFormat
    (format : string) (configs : list ServiceConfig) : list ServiceConfig :=
  filter
    (fun config =>
       let supportedFormats := output_formats (capabilities config) in
       Js.isTruthy (findAccepted supportedFormats format))
    configs.

(** The body of the [for (const mimeType of context.requestedMimeTypes)]
    loop of [selectFormat]; [outputFormat] is the loop-carried variable. *)
Fixpoint selectFormatLoop
    (outputFormat : option string) (mimeTypes : list string)
    (configs : list ServiceConfig) : option string :=
  match mimeTypes with
  | [] => outputFormat
  | mimeType :: rest =>
      let services := selectServicesForFormat mimeType configs in
      let outputFormat :=
        match services with
        | first :: _ =>
            findAccepted (output_formats (capabilities first)) mimeType
        | [] => outputFormat
        end in
      if Js.isTruthy outputFormat then outputFormat
      else selectFormatLoop outputFormat rest configs
  end.

Definition selectFormat
    (operation : DataOperation) (context : RequestContext)
    (configs : list ServiceConfig) : option string :=
  let outputFormat := outputFormat operation in
  if negb (Js.isTruthy outputFormat) && Js.nonEmpty (requestedMimeTypes context)
  then
    match requestedMimeTypes context with
    | Some mimeTypes => selectFormatLoop outputFormat mimeTypes configs
    | None => outputFormat
    end
  else outputFormat.

Definition hasVariables (s : Source) : bool := Js.nonEmpty (variables s).

Definition requiresVariableSubsetting (operation : DataOperation) : bool :=
  let varSources := filter hasVariables (sources operation) in
  (0 <? List.length varSources)%nat.

Definition supportsVariableSubsetting
    (configs : list ServiceConfig) : list ServiceConfig :=
  filter (fun config => subsetting_variable (capabilities config)) configs.

(** [!!operation.boundingRectangle]: an array is truthy even when empty. *)
Definition requiresSpatialSubsetting (operation : DataOperation) : bool :=
  match boundingRectangle operation with
  | Some _ => true
  | None => false
  end.

Definition supportsSpatialSubsetting
    (configs : list ServiceConfig) : list ServiceConfig :=
  filter (fun config => subsetting_bbox (capabilities config)) configs.

(** [if (matches.length === 0) throw new UnsupportedOperation(msg);
     return matches;] *)
Definition orUnsupported (matches : list ServiceConfig) (msg : string)
  : M (list ServiceConfig) :=
  if (List.length matches =? 0)%nat then throw (UnsupportedOperation msg)
  else ret matches.

Definition filterCollectionMatches : FilterFn :=
  fun context configs =>
    operation <- getOperation ;;
    let matches := filter (isCollectionMatch operation) configs in
    orUnsupported matches "no services are configured for the collection".

Definition filterVariableSubsettingMatches : FilterFn :=
  fun context configs =>
    operation <- getOperation ;;
    let variableSubsettingNeeded := requiresVariableSubsetting operation in
    let matches :=
      if variableSubsettingNeeded then supportsVariableSubsetting configs
      else configs in
    orUnsupported matches
      "none of the services configured for the collection support variable subsetting".

(** [`${operation.outputFormat || context.requestedMimeTypes}`] *)
Definition requestedFormatsText
    (operation : DataOperation) (context : RequestContext) : string :=
  match Js.truthy (outputFormat operation) with
  | Some fmt => fmt
  | None =>
      match requestedMimeTypes context with
      | Some mimeTypes => Js.join "," mimeTypes
      | None => "undefined"
      end
  end.

(** The [context &&] guard of the source is not modelled: the context
    passed to the chooser is always an object, so the guard reduces to the
    test on [requestedMimeTypes]. *)
Definition filterOutputFormatMatches : FilterFn :=
  fun context configs =>
    operation <- getOperation ;;
    services <-
      (if Js.isTruthy (outputFormat operation)
          || Js.nonEmpty (requestedMimeTypes context)
       then
         match Js.truthy (selectFormat operation context configs) with
         | Some outputFormat =>
             assignOutputFormat outputFormat ;;
             ret (selectServicesForFormat outputFormat configs)
         | None => ret []
         end
       else ret configs) ;;
    operation <- getOperation ;;
    orUnsupported services
      ("none of the services configured for the collection support "
         ++ "reformatting to any of the requested formats "
         ++ "[" ++ requestedFormatsText operation context ++ "]").

Definition filterSpatialSubsettingMatches : FilterFn :=
  fun context configs =>
    operation <- getOperation ;;
    let services :=
      if requiresSpatialSubsetting operation
      then supportsSpatialSubsetting configs
      else configs in
    orUnsupported services
      "none of the services configured for the collection support spatial subsetting".

(** [formats?.filter((f) => f !== '*' && f !== '*/*')] on the formats
    named by the operation or, failing that, by the context. *)
Definition reformattingFormats
    (operation : DataOperation) (context : RequestContext)
  : option (list string) :=
  let formats :=
    match Js.truthy (outputFormat operation) with
    | Some fmt => Some [fmt]
    | None => requestedMimeTypes context
    end in
  option_map
    (filter (fun f => negb (f =? "*") && negb (f =? "*/*")))
    formats.

(** The [requestedOptions] array after its three conditional pushes. *)
Definition requestedOptions
    (operation : DataOperation) (context : RequestContext) : list string :=
  let variable :=
    if requiresVariableSubsetting operation
    then ["variable subsetting"] else [] in
  let spatial :=
    if requiresSpatialSubsetting operation
    then ["spatial subsetting"] else [] in
  let reformatting :=
    if Js.nonEmpty (reformattingFormats operation context)
    then
      match reformattingFormats operation context with
      | Some formats => ["reformatting to " ++ listToText formats]
      | None => []
      end
    else [] in
  (variable ++ spatial ++ reformatting)%list.

Definition unsupportedCombinationMessage
    (operation : DataOperation) (context : RequestContext) : string :=
  let collections := map collection (sources operation) in
  let requestedOptions := requestedOptions operation context in
  if (0 <? List.length requestedOptions)%nat
  then "the requested combination of operations: "
         ++ listToText requestedOptions ++ " on "
         ++ listToText collections ++ " is unsupported"
  else "no operations can be performed on " ++ listToText collections.

Definition operationFilterFns : list FilterFn :=
  [ filterCollectionMatches;
    filterVariableSubsettingMatches;
    filterOutputFormatMatches;
    filterSpatialSubsettingMatches ].

(** [for (const filterFn of fns) matches = filterFn(operation, context,
    matches);] *)
Fixpoint applyFilters
    (fns : list FilterFn) (context : RequestContext)
    (matches : list ServiceConfig) : M (list ServiceConfig) :=
  match fns with
  | [] => ret matches
  | filterFn :: rest =>
      matches <- filterFn context matches ;;
      applyFilters rest context matches
  end.

(** [matches[0]]: [undefined] ([None]) on an empty array. *)
Definition first (matches : list ServiceConfig) : option ConfigRef :=
  match matches with
  | config :: _ => Some (Candidate config)
  | [] => None
  end.

(** The body of [chooseServiceConfig], over the list of filter functions
    it iterates. *)
Definition chooseServiceConfigWith
    (fns : list FilterFn) (context : RequestContext)
    (configs : list ServiceConfig) : M (option ConfigRef) :=
  tryCatch
    (matches <- applyFilters fns context configs ;;
     ret (first matches))
    (fun e =>
       if instanceofUnsupportedOperation e then
         loggerInfo ("Returning download links because "
                       ++ exnMessage e ++ ".") ;;
         operation <- getOperation ;;
         assignNoOpMessage (unsupportedCombinationMessage operation context) ;;
         ret (Some NoOpServiceRef)
       else throw e).

Definition chooseServiceConfig
    (context : RequestContext) (configs : list ServiceConfig)
  : M (option ConfigRef) :=
  chooseServiceConfigWith operationFilterFns context configs.

End Chooser.

(* ================================================================== *)
(** ** The service factory *)
(* ================================================================== *)

Module Factory.

(** The adapter classes the module imports. *)
Inductive ServiceClass : Type :=
| HttpService
| MessageQueueService
| ArgoService
| NoOpService.

(** [const serviceTypesToServiceClasses = { http: HttpService, queue:
    MessageQueueService, argo: ArgoService, noOp: NoOpService }]: the own
    properties of the object literal, in declaration order. *)
Definition serviceTypesToServiceClasses : list (string * ServiceClass) :=
  [ ("http", HttpService);
    ("queue", MessageQueueService);
    ("argo", ArgoService);
    ("noOp", NoOpService) ].

(** An object literal inherits from [Object.prototype]; these are the
    property names a bracket read finds there. Each of them holds a
    function, except [__proto__], which reads as [Object.prototype]
    itself: all are truthy. *)
Definition objectPrototypeKeys : list string :=
  [ "constructor"; "__defineGetter__"; "__defineSetter__";
    "hasOwnProperty"; "__lookupGetter__"; "__lookupSetter__";
    "isPrototypeOf"; "propertyIsEnumerable"; "toString"; "valueOf";
    "__proto__"; "toLocaleString" ].

(** The value of [serviceTypesToServiceClasses[key]]. *)
Inductive Property : Type :=
| Registered (cls : ServiceClass)
| Inherited (key : string)
| Undefined.

Fixpoint ownProperty (key : string) (props : list (string * ServiceClass))
  : option ServiceClass :=
  match props with
  | [] => None
  | (k, cls) :: rest => if (k =? key)%string then Some cls else ownProperty key rest
  end.

Definition getProperty (key : string) : Property :=
  match ownProperty key serviceTypesToServiceClasses with
  | Some cls => Registered cls
  | None =>
      if existsb (String.eqb key) objectPrototypeKeys then Inherited key
      else Undefined
  end.

(** What [buildService] hands back: the result of a [new] expression. *)
Inductive Built : Type :=
| ServiceInstance (cls : ServiceClass) (config : ConfigRef)
    (operation : DataOperation)
| AsynchronizerInstance (wrapped : Property) (config : ConfigRef)
    (operation : DataOperation)
| ConfigObject (config : ConfigRef).

(** [serviceConfig.type], through the reference. *)
Definition typeOf (noOp : NoOpServiceConfig) (serviceConfig : ConfigRef)
  : ServiceType :=
  match serviceConfig with
  | Candidate config => type config
  | NoOpServiceRef => noOpType noOp
  end.

Definition dquote : string := String (Ascii.ascii_of_nat 34) EmptyString.

(** [`Could not find an appropriate service class for type
    "${serviceConfig.type}"`]: the type is an object, which a template
    literal renders as [[object Object]]. *)
Definition notFoundMessage : string :=
  "Could not find an appropriate service class for type "
    ++ dquote ++ "[object Object]" ++ dquote.

(** [new ServiceClass(serviceConfig, operation)]. [Object] called as a
    constructor on an object returns that object; the other inherited
    members are not constructors. *)
Definition construct
    (ServiceClass : Property) (serviceConfig : ConfigRef)
    (operation : DataOperation) : Outcome Built :=
  match ServiceClass with
  | Registered cls => Return (ServiceInstance cls serviceConfig operation)
  | Inherited key =>
      if (key =? "constructor")%string then Return (ConfigObject serviceConfig)
      else Throw (TypeError "ServiceClass is not a constructor")
  | Undefined => Throw (TypeError "ServiceClass is not a constructor")
  end.

Definition buildService
    (noOp : NoOpServiceConfig) (serviceConfig : ConfigRef)
    (operation : DataOperation) : Outcome Built :=
  let type := typeOf noOp serviceConfig in
  let ServiceClass := getProperty (typeName type) in
  match ServiceClass with
  | Undefined => Throw (NotFoundError notFoundMessage)
  | _ =>
      if synchronous_only type || single_granule_requests type
      then Return (AsynchronizerInstance ServiceClass serviceConfig operation)
      else construct ServiceClass serviceConfig operation
  end.

(** The adapter classes registered for a mechanism tag: what the
    declaration of [serviceTypesToServiceClasses] lists. *)
Definition registeredClass (key : string) : option ServiceClass :=
  ownProperty key serviceTypesToServiceClasses.

End Factory.

(* ================================================================== *)
(** ** The local Docker adapter *)
(* ================================================================== *)

Module LocalDocker.

(** [this.params]: the image to run and the environment to pass, in
    [Object.keys] order. *)
Record Params : Type := mkParams {
  image : string;
  env : list (string * string)
}.

(** The fields of the adapter instance that [_invokeAsync] uses. *)
Record Service : Type := mkService {
  configName : string;
  params : Params;
  serviceOperation : DataOperation
}.

(** What the adapter does to the outside, in the order it does it. *)
Inductive Effect : Type :=
| LogParams (p : Params)
| LogInfo (line : string)
| LogError (line : string)
| Spawn (command : string) (args : list string)
| Post (baseURL : string) (query : list (string * string)).

(** The requests among a sequence of effects. *)
Definition posts (effects : list Effect) : list Effect :=
  filter (fun e => match e with Post _ _ => true | _ => false end) effects.

Definition unknownError : string :=
  "Service request failed with an unknown error.".

(** [axios.create({ baseURL: `${callbackUrl}/response` })
      .post(`?${querystring.stringify({ error: ... })}`)] *)
Definition childProcessAborted (callbackUrl : string) : list Effect :=
  [ LogError "Child did not hit the callback URL. Returning service request failed with an unknown error to the user.";
    Post (callbackUrl ++ "/response") [("error", unknownError)] ].

Section Adapter.

(** [isUrlBound] is imported from [backends/service-response] and
    [serialize] is a method of [DataOperation]; neither is among the
    sources. [CALLBACK_HOST] is [process.env.CALLBACK_HOST]. *)
Variable isUrlBound : string -> bool.
Variable serialize : DataOperation -> string.
Variable CALLBACK_HOST : option string.

(** The listener registered with [child.on('exit', ...)]; it closes
    over [originalCallback]. *)
Definition onExit (originalCallback : string)
    (code : option Z) (signal : option string) : list Effect :=
  LogInfo ("child process exited with code " ++ Js.showNumber code
             ++ " and signal " ++ Js.showString signal)
    :: (if isUrlBound originalCallback
        then childProcessAborted originalCallback
        else []).

(** [this.operation.sources[0].granules =
      this.operation.sources[0].granules.slice(5)] *)
Definition dropFirstGranules (operation : DataOperation)
  : Outcome DataOperation :=
  match sources operation with
  | [] => Throw (TypeError "Cannot read properties of undefined (reading 'granules')")
  | s :: rest =>
      Return (setSources
                ({| collection := collection s;
                    variables := variables s;
                    granules := skipn 5 (granules s) |} :: rest)
                operation)
  end.

(** [dockerParams.concat('-e', [variable, value].join('='))] for each
    key of [this.params.env]. *)
Fixpoint envParams (env : list (string * string)) : list string :=
  match env with
  | [] => []
  | (variable, value) :: rest =>
      "-e" :: (variable ++ "=" ++ value) :: envParams rest
  end.

(** A started invocation: the adapter after its operation was rewritten,
    the effects so far, and the callback URL captured by the exit
    listener. *)
Record Invocation : Type := mkInvocation {
  service : Service;
  effects : list Effect;
  originalCallback : string
}.

Definition invokeAsync (self : Service) : Outcome Invocation :=
  let hacked :=
    if (configName self =? "podaac-cloud/l2-subsetter-service")%string
    then dropFirstGranules (serviceOperation self)
    else Return (serviceOperation self) in
  match hacked with
  | Throw e => Throw e
  | Return operation =>
      let originalCallback := callback operation in
      let host :=
        match Js.truthy CALLBACK_HOST with
        | Some h => h
        | None => "host.docker.internal"
        end in
      let operation :=
        setCallback (Js.replace "localhost" host (callback operation))
          operation in
      let dockerParams :=
        (["run"; "--rm"; "-t"]
           ++ envParams (env (params self))
           ++ [ image (params self);
                "--harmony-action"; "invoke";
                "--harmony-input"; serialize operation ])%list in
      Return
        {| service := {| configName := configName self;
                         params := params self;
                         serviceOperation := operation |};
           effects := [ LogParams (params self);
                        LogInfo (Js.join " " dockerParams);
                        Spawn "docker" dockerParams ];
           originalCallback := originalCallback |}
  end.

End Adapter.

End LocalDocker.

(* ================================================================== *)
(** ** A reference implementation of the imported helpers *)
(* ================================================================== *)

Module Reference.

(** Modelled from the spec: [isMimeTypeAccepted] of
    [util/content-negotiation], which is not among the sources. A declared
    format satisfies a requested type by "exact or wildcard match": every
    [*] of the requested type stands for any run of characters. *)
Fixpoint wildcardMatch (pattern s : string) : bool :=
  match pattern with
  | EmptyString =>
      match s with EmptyString => true | String _ _ => false end
  | String p pattern' =>
      if Ascii.eqb p "*"%char then
        (fix anyRun (s : string) : bool :=
           wildcardMatch pattern' s
           || match s with
              | EmptyString => false
              | String _ s' => anyRun s'
              end) s
      else
        match s with
        | EmptyString => false
        | String c s' => Ascii.eqb p c && wildcardMatch pattern' s'
        end
  end.

Definition isMimeTypeAccepted (mimeType acceptHeader : string) : bool :=
  wildcardMatch acceptHeader mimeType.

(** One implementation of [listToText] of [util/string] (not among the
    sources): an English enumeration of the items. *)
Definition listToText (items : list string) : string :=
  match items with
  | [] => ""
  | [a] => a
  | [a; b] => a ++ " and " ++ b
  | _ => Js.join ", " (removelast items) ++ ", and " ++ last items ""
  end.

#[global] Instance imports : Imports :=
  mkImports isMimeTypeAccepted listToText.

End Reference.

(* ================================================================== *)
(** ** Vocabulary of the statements *)
(* ================================================================== *)

Section Vocabulary.

Context `{Imports}.

(** The caller hands another operation object to the next call. *)
Definition withOperation (op : DataOperation) (w : World) : World :=
  {| operation := op; noOpService := noOpService w; logged := logged w |}.

(** The world the [catch] block of [chooseServiceConfig] leaves when it
    handles [e] in world [w]: one log line and the explanation stored in
    the [noOpService] singleton. *)
Definition fallbackWorld
    (e : Exn) (context : RequestContext) (w : World) : World :=
  {| operation := operation w;
     noOpService :=
       setMessage (unsupportedCombinationMessage (operation w) context)
         (noOpService w);
     logged :=
       let line := "Returning download links because " ++ exnMessage e ++ "." in
       (logged w ++ [line])%list |}.

(** The world after [operation.outputFormat = fmt]. *)
Definition formatAssigned (fmt : string) (w : World) : World :=
  {| operation := setOutputFormat fmt (operation w);
     noOpService := noOpService w;
     logged := logged w |}.

(** The [message] field read through a descriptor reference. *)
Definition messageOf (w : World) (r : ConfigRef) : option string :=
  match r with
  | NoOpServiceRef => message (noOpService w)
  | Candidate _ => None
  end.

(** What each stage asks of a single descriptor, following the four
    stages of the selection contract. [operation] is the operation as
    selection leaves it, so its output format is the resolved one. *)
Definition passesCollection (operation : DataOperation) (c : ServiceConfig) : bool :=
  isCollectionMatch operation c.

Definition passesVariableSubsetting
    (operation : DataOperation) (c : ServiceConfig) : bool :=
  if requiresVariableSubsetting operation
  then subsetting_variable (capabilities c) else true.

Definition passesOutputFormat
    (operation : DataOperation) (c : ServiceConfig) : bool :=
  match Js.truthy (outputFormat operation) with
  | Some fmt => Js.isTruthy (findAccepted (output_formats (capabilities c)) fmt)
  | None => true
  end.

Definition passesSpatialSubsetting
    (operation : DataOperation) (c : ServiceConfig) : bool :=
  if requiresSpatialSubsetting operation
  then subsetting_bbox (capabilities c) else true.

Definition survivesAllStages
    (operation : DataOperation) (c : ServiceConfig) : bool :=
  passesCollection operation c
  && passesVariableSubsetting operation c
  && passesOutputFormat operation c
  && passesSpatialSubsetting operation c.

(** "Side-effect-free except for the operation's output format": nothing
    in the world but that one field differs. *)
Definition sameExceptOutputFormat (w w' : World) : Prop :=
  noOpService w' = noOpService w
  /\ logged w' = logged w
  /\ sources (operation w') = sources (operation w)
  /\ boundingRectangle (operation w') = boundingRectangle (operation w)
  /\ temporal (operation w') = temporal (operation w)
  /\ granuleIds (operation w') = granuleIds (operation w)
  /\ callback (operation w') = callback (operation w).

End Vocabulary.

(* ================================================================== *)
(** ** Concrete inputs used by the examples *)
(* ================================================================== *)

Module Samples.

Definition plainOperation : DataOperation :=
  {| sources := [ {| collection := "C1-TEST"; variables := None; granules := [] |} ];
     outputFormat := None;
     boundingRectangle := None;
     temporal := None;
     granuleIds := [];
     callback := "http://localhost:3000/service/abc" |}.

Definition variableOperation : DataOperation :=
  {| sources := [ {| collection := "C1-TEST";
                     variables := Some ["V1"];
                     granules := ["G1"] |} ];
     outputFormat := None;
     boundingRectangle := None;
     temporal := None;
     granuleIds := [];
     callback := "http://localhost:3000/service/abc" |}.

Definition boxOperation : DataOperation :=
  {| sources := [ {| collection := "C1-TEST"; variables := None; granules := [] |} ];
     outputFormat := None;
     boundingRectangle := Some [(-10)%Z; (-10)%Z; 10%Z; 10%Z];
     temporal := None;
     granuleIds := [];
     callback := "http://localhost:3000/service/abc" |}.

Definition world (op : DataOperation) : World :=
  {| operation := op; noOpService := noOpServiceInitial; logged := [] |}.

Definition noContext : RequestContext := {| requestedMimeTypes := None |}.

Definition pngThenAny : RequestContext :=
  {| requestedMimeTypes := Some ["image/png"; "*/*"] |}.

Definition anyOnly : RequestContext :=
  {| requestedMimeTypes := Some ["*/*"; "*"] |}.

Definition httpType : ServiceType :=
  {| typeName := "http"; synchronous_only := false; single_granule_requests := false |}.

Definition tiffService : ServiceConfig :=
  {| name := "tiff-only";
     type := httpType;
     collections := ["C1-TEST"];
     capabilities := {| output_formats := ["image/tiff"];
                        subsetting_variable := false;
                        subsetting_bbox := false |} |}.

Definition pngService : ServiceConfig :=
  {| name := "png-and-tiff";
     type := httpType;
     collections := ["C1-TEST"];
     capabilities := {| output_formats := ["image/png"; "image/tiff"];
                        subsetting_variable := false;
                        subsetting_bbox := false |} |}.

(** A descriptor whose mechanism tag is a name that every object
    inherits. *)
Definition inheritedTagService : ServiceConfig :=
  {| name := "mistyped";
     type := {| typeName := "constructor";
                synchronous_only := false;
                single_granule_requests := false |};
     collections := ["C1-TEST"];
     capabilities := {| output_formats := [];
                        subsetting_variable := false;
                        subsetting_bbox := false |} |}.

(** A stage that fails with an error of another class. *)
Definition brokenStage `{Imports} : FilterFn :=
  fun _ _ => throw (TypeError "configs.filter is not a function").

Definition dockerService : LocalDocker.Service :=
  {| LocalDocker.configName := "harmony/example";
     LocalDocker.params := {| LocalDocker.image := "harmony/example";
                              LocalDocker.env := [("EDL_USERNAME", "u")] |};
     LocalDocker.serviceOperation := plainOperation |}.

Definition boundNowhere (url : string) : bool := false.
Definition boundEverywhere (url : string) : bool := true.
Definition serializeCallback (op : DataOperation) : string := callback op.

End Samples.

(* ================================================================== *)
(** ** Collections with a backend *)
(* ================================================================== *)

(** [serviceConfigs.find((sc) => sc.collections.includes(collection.id))
      !== undefined], over the loaded [serviceConfigs]; the collection is
    given by its [id], the one field the function reads. *)
Definition isCollectionSupported
    (serviceConfigs : list ServiceConfig) (collectionId : string) : bool :=
  match find (fun sc => existsb (String.eqb collectionId) (collections sc))
          serviceConfigs with
  | Some _ => true
  | None => false
  end.

(* ================================================================== *)
(** ** Loading the service configuration *)
(* ================================================================== *)

Module Loader.

(** [\w] of a JavaScript regular expression: an ASCII letter, digit or
    underscore. *)
Definition isWordChar (c : ascii) : bool :=
  let n := nat_of_ascii c in
  ((48 <=? n) && (n <=? 57)
   || (65 <=? n) && (n <=? 90)
   || (97 <=? n) && (n <=? 122)
   || (n =? 95))%nat.

(** The longest run of word characters at the start of [s]: what the
    greedy [\w+] takes. *)
Fixpoint wordPrefix (s : string) : string :=
  match s with
  | String c rest => if isWordChar c then String c (wordPrefix rest) else EmptyString
  | EmptyString => EmptyString
  end.

Fixpoint dropChars (n : nat) (s : string) : string :=
  match n, s with
  | S k, String _ rest => dropChars k rest
  | _, _ => s
  end.

(** A match of [/\$\{(\w+)\}/] that starts at the first character of [s]:
    the variable name it captures. The name is followed by the closing
    brace or there is no match here, since a shorter run of word characters
    is followed by a word character. *)
Definition matchAt (s : string) : option string :=
  match Js.stripPrefix "${" s with
  | Some afterBrace =>
      let name := wordPrefix afterBrace in
      if (name =? "")%string then None
      else
        match Js.stripPrefix "}" (dropChars (String.length name) afterBrace) with
        | Some _ => Some name
        | None => None
        end
  | None => None
  end.

Section Construct.

(** [process.env[name]]: the value of the variable, [None] when it is not
    set. *)
Variable processEnv : string -> option string.

(** [process.env[v.match(/\w+/)] || ''] *)
Definition envValue (name : string) : string :=
  match Js.truthy (processEnv name) with
  | Some value => value
  | None => ""
  end.

(** [data.replace(regex, callback)] with the global flag: the text is
    scanned from the left; a match is replaced by what the callback returns
    and the scan resumes after it. [skip] counts the characters of a match
    still to be passed over. *)
Fixpoint replaceFrom (skip : nat) (data : string) : string :=
  match data with
  | EmptyString => EmptyString
  | String c rest =>
      match skip with
      | S k => replaceFrom k rest
      | O =>
          match matchAt data with
          | Some name => envValue name ++ replaceFrom (String.length name + 2) rest
          | None => String c (replaceFrom 0 rest)
          end
      end
  end.

(** The [construct] function of the [!Env] YAML type. *)
Definition construct (data : string) : string := replaceFrom 0 data.

End Construct.

(** The [enabled] key of a configuration entry as YAML delivers it: a
    boolean, a string, or nothing. *)
Inductive Enabled : Type :=
| EnabledAbsent
| EnabledBoolean (b : bool)
| EnabledString (s : string).

Record Entry : Type := mkEntry {
  enabled : Enabled;
  config : ServiceConfig
}.

(** [config.enabled !== false && config.enabled !== 'false'] *)
Definition isEnabled (entry : Entry) : bool :=
  match enabled entry with
  | EnabledBoolean false => false
  | EnabledString s => negb (s =? "false")%string
  | _ => true
  end.

(** [envConfigs[env.cmrEndpoint].filter(...)]: the value assigned to
    [serviceConfigs]. *)
Definition loadServiceConfigs (entries : list Entry) : list ServiceConfig :=
  map config (filter isEnabled entries).

(** No character of [s] is [c]. *)
Fixpoint lacks (c : ascii) (s : string) : bool :=
  match s with
  | EmptyString => true
  | String d rest => negb (Ascii.eqb c d) && lacks c rest
  end.


End Loader.

(* ================================================================== *)
(** ** The granule locator *)
(* ================================================================== *)

Module GranuleLocator.

(** [s.endsWith(suffix)] *)
Fixpoint endsWith (s suffix : string) : bool :=
  (s =? suffix)%string
  || match s with
     | EmptyString => false
     | String _ rest => endsWith rest suffix
     end.

(** A link of an Atom granule; [inherited] may be absent, which reads as
    falsy. *)
Record Link : Type := mkLink {
  rel : string;
  href : string;
  inherited : bool
}.

Record AtomGranule : Type := mkAtomGranule {
  id : string;
  title : string;
  links : list Link
}.

(** [{ id: granule.id, name: granule.title, url: link.href }] *)
Record Granule : Type := mkGranule {
  granuleId : string;
  name : string;
  url : string
}.

(** What a granule query resolves to. [hits] is a count; it is added to
    [operation.cmrHits] as an integer. *)
Record CmrResponse : Type := mkCmrResponse {
  hits : Z;
  granules : list AtomGranule
}.

(** The errors the middleware tells apart, and any other error. *)
Inductive Failure : Type :=
| RequestValidationError (message : string)
| CmrError (message : string)
| ServerError (message : string)
| Unexpected (e : Exn).

(** [granule.links.find((g) => g.rel.endsWith('/data#') && !g.inherited)] *)
Definition dataLink (granule : AtomGranule) : option Link :=
  find (fun g => endsWith (rel g) "/data#" && negb (inherited g)) (links granule).

(** The [for (const granule of atomGranules)] loop. *)
Fixpoint collectGranules (atomGranules : list AtomGranule) : list Granule :=
  match atomGranules with
  | [] => []
  | granule :: rest =>
      match dataLink granule with
      | Some link =>
          {| granuleId := id granule; name := title granule; url := href link |}
            :: collectGranules rest
      | None => collectGranules rest
      end
  end.

(** What one source's callback does once its query has resolved: the
    amount added to [operation.cmrHits], the lines logged (the duration
    apart), and either the granules it assigns to the source or the error
    it throws. The hits are added before the granules are looked at. *)
Record Located : Type := mkLocated {
  addedHits : Z;
  infoLines : list string;
  attached : Failure + list Granule
}.

Definition onResponse (response : CmrResponse) : Located :=
  let granules := collectGranules (granules response) in
  {| addedHits := hits response;
     infoLines := [ "Completed granule query";
                    "Found " ++ Js.showNumber (Some (hits response)) ++ " granules" ];
     attached :=
       if (List.length granules =? 0)%nat
       then inl (RequestValidationError "No matching granules found.")
       else inr granules |}.

(** The settlement of one source's promise: the query may itself reject. *)
Definition settleSource (queried : Failure + CmrResponse) : Failure + list Granule :=
  match queried with
  | inl e => inl e
  | inr response => attached (onResponse response)
  end.

(** [await Promise.all(queries)], given the promises' settlements in the
    order in which they happen: the first rejection is thrown; if there is
    none the wait ends normally. *)
Fixpoint awaitAll {A} (settled : list (Failure + A)) : option Failure :=
  match settled with
  | [] => None
  | inl e :: _ => Some e
  | inr _ :: rest => awaitAll rest
  end.

(** The calls the middleware makes after the wait. *)
Inductive Call : Type :=
| LoggerError (e : Failure)
| Next (argument : option Failure).

(** The [catch] block and the statement after the [try]: a validation or
    CMR error returns out of the function with [next(e)]; for any other
    error the block ends without returning, so the final [return next()]
    runs as well. *)
Definition afterQueries (awaited : option Failure) : list Call :=
  match awaited with
  | None => [Next None]
  | Some e =>
      match e with
      | RequestValidationError _ | CmrError _ => [Next (Some e)]
      | _ => [ LoggerError e;
               Next (Some (ServerError "Failed to query the CMR"));
               Next None ]
      end
  end.

(** The query parameters built from the operation. [bounding_box] holds
    the numbers that the source joins with commas. An absent [start] or
    [end] of the temporal range reads as the empty string. *)
Record CmrQuery : Type := mkCmrQuery {
  queryTemporal : option string;
  bounding_box : option (list Z);
  concept_id : list string
}.

Definition buildQuery (operation : DataOperation) : CmrQuery :=
  {| queryTemporal :=
       match temporal operation with
       | Some (start, stop) => Some (start ++ "," ++ stop)
       | None => None
       end;
     bounding_box := boundingRectangle operation;
     concept_id := granuleIds operation |}.

(** The middleware as a whole, from the request's operation (absent when
    an earlier middleware set none) and the settlements of the per-source
    queries in the order they happen. The request is taken to come from
    the cookie parser, so that reading [req.signedCookies.shapefile] and
    clearing the cookie do not fail; neither has a part in what is passed
    to [next]. *)
Definition cmrGranuleLocator
    (operation : option DataOperation)
    (queried : list (Failure + CmrResponse)) : list Call :=
  match operation with
  | None => [Next None]
  | Some _ => afterQueries (awaitAll (map settleSource queried))
  end.

(** How often [next] is called. *)
Definition nextCalls (calls : list Call) : nat :=
  List.length (filter (fun c => match c with Next _ => true | _ => false end) calls).

End GranuleLocator.

(** [s.includes(pattern)], as a test. *)
Fixpoint occursIn (pattern s : string) : bool :=
  match Js.stripPrefix pattern s with
  | Some _ => true
  | None =>
      match s with
      | EmptyString => false
      | String _ rest => occursIn pattern rest
      end
  end.

(* ================================================================== *)
(** ** More concrete inputs *)
(* ================================================================== *)

Module MoreSamples.

Definition environment (name : string) : option string :=
  if (name =? "STAGING_BUCKET")%string then Some "harmony-uat-staging"
  else if (name =? "NESTED")%string then Some "${STAGING_BUCKET}"
  else None.

Definition dataLinkOf (url : string) : GranuleLocator.Link :=
  {| GranuleLocator.rel := "http://esipfed.org/ns/fedsearch/1.1/data#";
     GranuleLocator.href := url;
     GranuleLocator.inherited := false |}.

Definition browseLink : GranuleLocator.Link :=
  {| GranuleLocator.rel := "http://esipfed.org/ns/fedsearch/1.1/browse#";
     GranuleLocator.href := "https://example.com/browse.png";
     GranuleLocator.inherited := false |}.

Definition usableGranule : GranuleLocator.AtomGranule :=
  {| GranuleLocator.id := "G1-TEST";
     GranuleLocator.title := "granule-1";
     GranuleLocator.links := [browseLink; dataLinkOf "https://example.com/g1.nc"] |}.

Definition browseOnlyGranule : GranuleLocator.AtomGranule :=
  {| GranuleLocator.id := "G2-TEST";
     GranuleLocator.title := "granule-2";
     GranuleLocator.links := [browseLink] |}.

Definition usableResponse : GranuleLocator.CmrResponse :=
  {| GranuleLocator.hits := 2%Z;
     GranuleLocator.granules := [browseOnlyGranule; usableGranule] |}.

Definition emptyResponse : GranuleLocator.CmrResponse :=
  {| GranuleLocator.hits := 0%Z; GranuleLocator.granules := [] |}.

Definition queueService : ServiceConfig :=
  {| name := "queued";
     type := {| typeName := "queue";
                synchronous_only := false;
                single_granule_requests := true |};
     collections := ["C2-TEST"];
     capabilities := {| output_formats := ["application/x-zarr"];
                        subsetting_variable := true;
                        subsetting_bbox := true |} |}.

Definition podaacService : LocalDocker.Service :=
  {| LocalDocker.configName := "podaac-cloud/l2-subsetter-service";
     LocalDocker.params := {| LocalDocker.image := "podaac/l2ss";
                              LocalDocker.env := [] |};
     LocalDocker.serviceOperation :=
       {| sources := [ {| collection := "C1-TEST";
                          variables := None;
                          granules := ["G1"; "G2"; "G3"; "G4"; "G5"; "G6"; "G7"] |};
                       {| collection := "C2-TEST";
                          variables := None;
                          granules := ["H1"] |} ];
          outputFormat := None;
          boundingRectangle := None;
          temporal := None;
          granuleIds := [];
          callback := "http://localhost:3000/service/abc" |} |}.


Definition remoteOperation : DataOperation :=
  setCallback "https://harmony.example.com/service/abc" Samples.plainOperation.

Definition remoteService : LocalDocker.Service :=
  {| LocalDocker.configName := "harmony/example";
     LocalDocker.params := {| LocalDocker.image := "harmony/example";
                              LocalDocker.env := [] |};
     LocalDocker.serviceOperation := remoteOperation |}.

Definition remoteInvocation : LocalDocker.Invocation :=
  {| LocalDocker.service := remoteService;
     LocalDocker.effects :=
       [ LocalDocker.LogParams (LocalDocker.params remoteService);
         LocalDocker.LogInfo
           "run --rm -t harmony/example --harmony-action invoke --harmony-input https://harmony.example.com/service/abc";
         LocalDocker.Spawn "docker"
           [ "run"; "--rm"; "-t";
             "harmony/example"; "--harmony-action"; "invoke";
             "--harmony-input";
             "https://harmony.example.com/service/abc" ] ];
     LocalDocker.originalCallback := "https://harmony.example.com/service/abc" |}.

Definition pngOperation : DataOperation :=
  {| sources := [ {| collection := "C1-TEST"; variables := None; granules := [] |} ];
     outputFormat := Some "image/png";
     boundingRectangle := None;
     temporal := None;
     granuleIds := [];
     callback := "http://localhost:3000/service/abc" |}.

End MoreSamples.

(* ================================================================== *)
(** ** Basic facts: strings and the monad *)
(* ================================================================== *)

Lemma string_app_assoc (a b c : string) : (a ++ b) ++ c = a ++ b ++ c.
Proof.
  induction a as [|ch a IH]; simpl; [reflexivity | now rewrite IH].
Qed.

Lemma string_app_empty_r (s : string) : s ++ "" = s.
Proof.
  induction s as [|ch s IH]; simpl; [reflexivity | now rewrite IH].
Qed.

Lemma includes_refl (s : string) : Js.includes s s.
Proof.
  exists "", "". simpl. now rewrite string_app_empty_r.
Qed.

Lemma includes_app_l (s t sub : string) :
  Js.includes s sub -> Js.includes (s ++ t) sub.
Proof.
  intros (pre & post & ->). exists pre, (post ++ t).
  now rewrite !string_app_assoc.
Qed.

Lemma includes_app_r (s t sub : string) :
  Js.includes t sub -> Js.includes (s ++ t) sub.
Proof.
  intros (pre & post & ->). exists (s ++ pre), post.
  now rewrite !string_app_assoc.
Qed.

Lemma isTruthy_truthy (v : option string) :
  Js.isTruthy v = true <-> exists s, Js.truthy v = Some s.
Proof.
  unfold Js.isTruthy. destruct (Js.truthy v) as [s|]; split.
  - intros _. now exists s.
  - reflexivity.
  - discriminate.
  - intros [s Hs]. discriminate.
Qed.

Lemma truthy_Some (v : option string) (s : string) :
  Js.truthy v = Some s -> v = Some s /\ s <> "".
Proof.
  unfold Js.truthy. destruct v as [t|]; [|discriminate].
  destruct (String.eqb_spec t ""); [discriminate|].
  intros [= ->]. now split.
Qed.

Lemma truthy_idem (v : option string) (s : string) :
  Js.truthy v = Some s -> Js.truthy (Some s) = Some s.
Proof.
  intros Hs. apply truthy_Some in Hs as [_ Hne]. simpl.
  destruct (String.eqb_spec s ""); [contradiction | reflexivity].
Qed.

(* ================================================================== *)
(** ** The filter stages, one by one *)
(* ================================================================== *)

Section StageFacts.

Context `{Imports}.

Lemma orUnsupported_nil (msg : string) (w : World) :
  orUnsupported [] msg w = (Throw (UnsupportedOperation msg), w).
Proof. reflexivity. Qed.

Lemma orUnsupported_cons (c : ServiceConfig) (cs : list ServiceConfig)
    (msg : string) (w : World) :
  orUnsupported (c :: cs) msg w = (Return (c :: cs), w).
Proof. reflexivity. Qed.

(** [orUnsupported] either hands its argument back or throws an
    [UnsupportedOperation]; it never touches the world. *)
Lemma orUnsupported_inv (m : list ServiceConfig) (msg : string)
    (w w' : World) (r : Outcome (list ServiceConfig)) :
  orUnsupported m msg w = (r, w') ->
  w' = w
  /\ ((r = Return m /\ m <> [])
      \/ (r = Throw (UnsupportedOperation msg) /\ m = [])).
Proof.
  destruct m as [|c cs]; simpl.
  - rewrite orUnsupported_nil. intros [= <- <-]. split; [reflexivity|].
    right. now split.
  - rewrite orUnsupported_cons. intros [= <- <-]. split; [reflexivity|].
    left. split; [reflexivity | discriminate].
Qed.

Lemma filterCollectionMatches_eq (ctx : RequestContext)
    (configs : list ServiceConfig) (w : World) :
  filterCollectionMatches ctx configs w =
  orUnsupported (filter (isCollectionMatch (operation w)) configs)
    "no services are configured for the collection" w.
Proof. reflexivity. Qed.

Lemma filterVariableSubsettingMatches_eq (ctx : RequestContext)
    (configs : list ServiceConfig) (w : World) :
  filterVariableSubsettingMatches ctx configs w =
  orUnsupported
    (if requiresVariableSubsetting (operation w)
     then supportsVariableSubsetting configs else configs)
    "none of the services configured for the collection support variable subsetting"
    w.
Proof. reflexivity. Qed.

Lemma filterSpatialSubsettingMatches_eq (ctx : RequestContext)
    (configs : list ServiceConfig) (w : World) :
  filterSpatialSubsettingMatches ctx configs w =
  orUnsupported
    (if requiresSpatialSubsetting (operation w)
     then supportsSpatialSubsetting configs else configs)
    "none of the services configured for the collection support spatial subsetting"
    w.
Proof. reflexivity. Qed.

(** The three ways through the output-format stage. *)
Lemma filterOutputFormatMatches_cases (ctx : RequestContext)
    (configs : list ServiceConfig) (w w' : World)
    (r : Outcome (list ServiceConfig)) :
  filterOutputFormatMatches ctx configs w = (r, w') ->
  (* no format asked for: every candidate passes *)
  (Js.isTruthy (outputFormat (operation w))
     || Js.nonEmpty (requestedMimeTypes ctx) = false
   /\ w' = w
   /\ ((r = Return configs /\ configs <> [])
       \/ (configs = [] /\ exists msg, r = Throw (UnsupportedOperation msg))))
  \/
  (* a format was asked for and none could be resolved *)
  (Js.isTruthy (outputFormat (operation w))
     || Js.nonEmpty (requestedMimeTypes ctx) = true
   /\ Js.truthy (selectFormat (operation w) ctx configs) = None
   /\ w' = w
   /\ exists msg, r = Throw (UnsupportedOperation msg))
  \/
  (* a format was resolved and assigned *)
  (exists fmt,
      Js.isTruthy (outputFormat (operation w))
        || Js.nonEmpty (requestedMimeTypes ctx) = true
      /\ Js.truthy (selectFormat (operation w) ctx configs) = Some fmt
      /\ w' = formatAssigned fmt w
      /\ ((r = Return (selectServicesForFormat fmt configs)
           /\ selectServicesForFormat fmt configs <> [])
          \/ (selectServicesForFormat fmt configs = []
              /\ exists msg, r = Throw (UnsupportedOperation msg)))).
Proof.
  unfold filterOutputFormatMatches, bind, getOperation. intros Hrun.
  destruct (Js.isTruthy (outputFormat (operation w))
              || Js.nonEmpty (requestedMimeTypes ctx)) eqn:Hasked.
  - destruct (Js.truthy (selectFormat (operation w) ctx configs))
      as [fmt|] eqn:Hfmt.
    + right. right. exists fmt.
      unfold assignOutputFormat, ret in Hrun. cbn beta iota in Hrun.
      fold (formatAssigned fmt w) in Hrun.
      destruct (selectServicesForFormat fmt configs) as [|c cs] eqn:Hsel.
      * rewrite orUnsupported_nil in Hrun. injection Hrun as <- <-.
        repeat split; try reflexivity. right. split; [reflexivity|].
        eexists. reflexivity.
      * rewrite orUnsupported_cons in Hrun. injection Hrun as <- <-.
        repeat split; try reflexivity. left. split; [reflexivity|discriminate].
    + right. left. unfold ret in Hrun. cbn beta iota in Hrun.
      rewrite orUnsupported_nil in Hrun. injection Hrun as <- <-.
      repeat split; try reflexivity. eexists. reflexivity.
  - left. unfold ret in Hrun. cbn beta iota in Hrun.
    destruct configs as [|c cs].
    + rewrite orUnsupported_nil in Hrun. injection Hrun as <- <-.
      repeat split; try reflexivity. right. split; [reflexivity|].
      eexists. reflexivity.
    + rewrite orUnsupported_cons in Hrun. injection Hrun as <- <-.
      repeat split; try reflexivity. left. split; [reflexivity|discriminate].
Qed.

End StageFacts.

(* ================================================================== *)
(** ** The pipeline as a whole *)
(* ================================================================== *)

Lemma filter_filter_andb {A} (p q : A -> bool) (l : list A) :
  filter p (filter q l) = filter (fun x => q x && p x) l.
Proof.
  induction l as [|a l IH]; simpl; [reflexivity|].
  destruct (q a); simpl; [destruct (p a)|]; now rewrite IH.
Qed.

Lemma filter_all_true {A} (p : A -> bool) (l : list A) :
  (forall x, p x = true) -> filter p l = l.
Proof.
  intros Hp. induction l as [|a l IH]; simpl; [reflexivity|].
  now rewrite Hp, IH.
Qed.

(** The first element of a filtered list is the first element of the list
    that passes, and everything before it fails. *)
Lemma filter_head_split {A} (p : A -> bool) (l : list A) (c : A) (cs : list A) :
  filter p l = c :: cs ->
  exists pre post,
    l = (pre ++ c :: post)%list
    /\ p c = true
    /\ Forall (fun x => p x = false) pre
    /\ cs = filter p post.
Proof.
  induction l as [|a l IH]; simpl; [discriminate|].
  destruct (p a) eqn:Hpa.
  - intros [= -> <-]. exists [], l. now repeat split.
  - intros Hf. destruct (IH Hf) as (pre & post & -> & Hc & Hpre & Hcs).
    exists (a :: pre), post. repeat split; auto.
Qed.

Section PipelineFacts.

Context `{Imports}.

Lemma stage_predicates_setOutputFormat (fmt : string) (op : DataOperation)
    (c : ServiceConfig) :
  passesCollection (setOutputFormat fmt op) c = passesCollection op c
  /\ passesVariableSubsetting (setOutputFormat fmt op) c
     = passesVariableSubsetting op c
  /\ passesSpatialSubsetting (setOutputFormat fmt op) c
     = passesSpatialSubsetting op c.
Proof. repeat split. Qed.

(** What a run of the four stages can do: it leaves the world alone or
    assigns the output format once; it ends either in an
    [UnsupportedOperation] or with the candidates that pass every stage,
    in their input order, of which there is at least one. *)
Lemma applyFilters_inv (ctx : RequestContext) (configs : list ServiceConfig)
    (w w' : World) (r : Outcome (list ServiceConfig)) :
  applyFilters operationFilterFns ctx configs w = (r, w') ->
  (w' = w
   \/ exists fmt, Js.truthy (Some fmt) = Some fmt /\ w' = formatAssigned fmt w)
  /\ ((exists msg, r = Throw (UnsupportedOperation msg))
      \/ (r = Return (filter (survivesAllStages (operation w')) configs)
          /\ filter (survivesAllStages (operation w')) configs <> [])).
Proof.
  unfold operationFilterFns. cbn [applyFilters]. unfold bind at 1.
  rewrite filterCollectionMatches_eq.
  destruct (orUnsupported (filter (isCollectionMatch (operation w)) configs) _ w)
    as [r1 w1] eqn:H1.
  apply orUnsupported_inv in H1 as [-> [[-> Hne1] | [-> _]]].
  2:{ intros [= <- <-]. split; [now left|]. left. eexists; reflexivity. }
  unfold bind at 1. rewrite filterVariableSubsettingMatches_eq.
  set (m1 := filter (isCollectionMatch (operation w)) configs) in *.
  destruct (orUnsupported _ _ w) as [r2 w2] eqn:H2.
  apply orUnsupported_inv in H2 as [-> [[-> Hne2] | [-> _]]].
  2:{ intros [= <- <-]. split; [now left|]. left. eexists; reflexivity. }
  set (m2 := if requiresVariableSubsetting (operation w)
             then supportsVariableSubsetting m1 else m1) in *.
  assert (Hm2 : m2 = filter (fun c => passesCollection (operation w) c
                                      && passesVariableSubsetting (operation w) c)
                       configs).
  { subst m2 m1. unfold passesVariableSubsetting, passesCollection.
    destruct (requiresVariableSubsetting (operation w)).
    - unfold supportsVariableSubsetting. now rewrite filter_filter_andb.
    - apply filter_ext. intros a. now rewrite andb_true_r. }
  unfold bind at 1.
  destruct (filterOutputFormatMatches ctx m2 w) as [r3 w3] eqn:H3.
  apply filterOutputFormatMatches_cases in H3.
  destruct H3 as [(Hask & -> & Hr3) | [(Hask & Hnone & -> & [msg ->])
                                       | (fmt & Hask & Hfmt & -> & Hr3)]].
  - (* no format asked for *)
    destruct Hr3 as [[-> Hne3] | [Hnil _]]; [|contradiction].
    cbn [applyFilters]. unfold bind at 1.
    rewrite filterSpatialSubsettingMatches_eq.
    destruct (orUnsupported _ _ w) as [r4 w4] eqn:H4.
    apply orUnsupported_inv in H4 as [-> [[-> Hne4] | [-> _]]].
    2:{ intros [= <- <-]. split; [now left|]. left. eexists; reflexivity. }
    unfold ret. intros [= <- <-]. split; [now left|]. right.
    apply orb_false_elim in Hask as [Hfalsy _].
    assert (Heq : (if requiresSpatialSubsetting (operation w)
                   then supportsSpatialSubsetting m2 else m2)
                  = filter (survivesAllStages (operation w)) configs).
    { rewrite Hm2. unfold survivesAllStages.
      assert (Hpf : forall c, passesOutputFormat (operation w) c = true).
      { intros c. unfold passesOutputFormat. unfold Js.isTruthy in Hfalsy.
        now destruct (Js.truthy (outputFormat (operation w))). }
      unfold passesSpatialSubsetting.
      destruct (requiresSpatialSubsetting (operation w)).
      - unfold supportsSpatialSubsetting. rewrite filter_filter_andb.
        apply filter_ext. intros a. now rewrite Hpf, andb_true_r.
      - apply filter_ext. intros a. now rewrite Hpf, !andb_true_r. }
    rewrite <- Heq. now split.
  - (* asked for, none resolved *)
    intros [= <- <-]. split; [now left|]. left. eexists; reflexivity.
  - (* resolved and assigned *)
    pose proof (truthy_idem _ _ Hfmt) as Hidem.
    destruct Hr3 as [[-> Hne3] | [_ [msg ->]]].
    2:{ intros [= <- <-]. split; [right; now exists fmt|].
        left. eexists; reflexivity. }
    cbn [applyFilters]. unfold bind at 1.
    rewrite filterSpatialSubsettingMatches_eq.
    destruct (orUnsupported _ _ (formatAssigned fmt w)) as [r4 w4] eqn:H4.
    apply orUnsupported_inv in H4 as [-> [[-> Hne4] | [-> _]]].
    2:{ intros [= <- <-]. split; [right; now exists fmt|].
        left. eexists; reflexivity. }
    unfold ret. intros [= <- <-]. split; [right; now exists fmt|]. right.
    assert (Heq : (if requiresSpatialSubsetting (operation (formatAssigned fmt w))
                   then supportsSpatialSubsetting (selectServicesForFormat fmt m2)
                   else selectServicesForFormat fmt m2)
                  = filter (survivesAllStages (operation (formatAssigned fmt w)))
                      configs).
    { rewrite Hm2. unfold survivesAllStages, selectServicesForFormat.
      rewrite filter_filter_andb.
      assert (Hpf : forall c,
                 passesOutputFormat (operation (formatAssigned fmt w)) c
                 = Js.isTruthy (findAccepted (output_formats (capabilities c)) fmt)).
      { intros c. unfold passesOutputFormat, formatAssigned.
        cbn [operation setOutputFormat outputFormat]. now rewrite Hidem. }
      unfold passesSpatialSubsetting.
      destruct (requiresSpatialSubsetting (operation (formatAssigned fmt w))).
      - unfold supportsSpatialSubsetting. rewrite filter_filter_andb.
        apply filter_ext. intros a. now rewrite Hpf.
      - apply filter_ext. intros a. now rewrite Hpf, andb_true_r. }
    rewrite <- Heq. now split.
Qed.

End PipelineFacts.

(* ================================================================== *)
(** ** chooseServiceConfig: fallback and propagation *)
(* ================================================================== *)

Section SelectorFacts.

Context `{Imports}.

(** Running the stages [pre ++ f :: post] when [pre] passes and [f]
    throws: the loop stops at [f]. *)
Lemma applyFilters_stops
    (pre post : list FilterFn) (f : FilterFn) (ctx : RequestContext) :
  forall (configs matches : list ServiceConfig) (w w1 w2 : World) (e : Exn),
    applyFilters pre ctx configs w = (Return matches, w1) ->
    f ctx matches w1 = (Throw e, w2) ->
    applyFilters (pre ++ f :: post) ctx configs w = (Throw e, w2).
Proof.
  induction pre as [|g pre IH]; intros configs matches w w1 w2 e Hpre Hf.
  - cbn in Hpre. unfold ret in Hpre. injection Hpre as <- <-.
    cbn [app applyFilters]. unfold bind. now rewrite Hf.
  - cbn [app applyFilters] in *. unfold bind in *.
    destruct (g ctx configs w) as [[m|e'] w'].
    + eapply IH; eassumption.
    + discriminate.
Qed.

(** The [try]/[catch] of [chooseServiceConfig], by the outcome of the
    loop. *)
Lemma chooseServiceConfigWith_run
    (fns : list FilterFn) (ctx : RequestContext)
    (configs : list ServiceConfig) (w : World) :
  chooseServiceConfigWith fns ctx configs w =
  match applyFilters fns ctx configs w with
  | (Return matches, w1) => (Return (first matches), w1)
  | (Throw e, w1) =>
      if instanceofUnsupportedOperation e
      then (Return (Some NoOpServiceRef), fallbackWorld e ctx w1)
      else (Throw e, w1)
  end.
Proof.
  unfold chooseServiceConfigWith, tryCatch, bind.
  destruct (applyFilters fns ctx configs w) as [[m|e] w1]; [reflexivity|].
  destruct (instanceofUnsupportedOperation e); reflexivity.
Qed.

(** Every stage of [operationFilterFns] throws nothing but
    [UnsupportedOperation]. *)
Lemma operationFilterFns_throw_unsupported
    (f : FilterFn) (ctx : RequestContext) (configs : list ServiceConfig)
    (w w' : World) (e : Exn) :
  In f operationFilterFns ->
  f ctx configs w = (Throw e, w') ->
  instanceofUnsupportedOperation e = true.
Proof.
  intros Hin Hrun. simpl in Hin.
  destruct Hin as [<- | [<- | [<- | [<- | []]]]].
  - rewrite filterCollectionMatches_eq in Hrun.
    apply orUnsupported_inv in Hrun as [_ [[Hr _] | [Hr _]]];
      [discriminate | now injection Hr as ->].
  - rewrite filterVariableSubsettingMatches_eq in Hrun.
    apply orUnsupported_inv in Hrun as [_ [[Hr _] | [Hr _]]];
      [discriminate | now injection Hr as ->].
  - apply filterOutputFormatMatches_cases in Hrun.
    destruct Hrun as [(_ & _ & [[Hr _] | [_ [msg Hr]]])
                     | [(_ & _ & _ & [msg Hr])
                       | (fmt & _ & _ & _ & [[Hr _] | [_ [msg Hr]]])]];
      try discriminate; now injection Hr as ->.
  - rewrite filterSpatialSubsettingMatches_eq in Hrun.
    apply orUnsupported_inv in Hrun as [_ [[Hr _] | [Hr _]]];
      [discriminate | now injection Hr as ->].
Qed.

(** C1. Whenever a stage throws (the stages before it having passed their
    candidates on), [chooseServiceConfig] looks at the class of the
    error: an [UnsupportedOperation] makes it return the [noOpService]
    singleton, whose [message] it has set to what
    [unsupportedCombinationMessage] builds from the operation (as the
    failing stage left it) and the context, and nothing is raised; an error of any other class is
    rethrown as it is. This holds for every list of stages the loop may
    run; the four stages of [operationFilterFns], which is what
    [chooseServiceConfig] runs, throw [UnsupportedOperation] only. *)
Theorem chooseServiceConfig_unsupported_falls_back
    (fns pre post : list FilterFn) (f : FilterFn) (ctx : RequestContext)
    (configs matches : list ServiceConfig) (w w1 w2 : World) (e : Exn) :
  fns = (pre ++ f :: post)%list ->
  applyFilters pre ctx configs w = (Return matches, w1) ->
  f ctx matches w1 = (Throw e, w2) ->
  chooseServiceConfigWith fns ctx configs w =
    (if instanceofUnsupportedOperation e
     then (Return (Some NoOpServiceRef), fallbackWorld e ctx w2)
     else (Throw e, w2))
  /\ messageOf (fallbackWorld e ctx w2) NoOpServiceRef
     = Some (unsupportedCombinationMessage (operation w2) ctx)
  /\ (fns = operationFilterFns ->
      instanceofUnsupportedOperation e = true
      /\ chooseServiceConfig ctx configs w
         = (Return (Some NoOpServiceRef), fallbackWorld e ctx w2)).
Proof.
  intros -> Hpre Hf.
  pose proof (applyFilters_stops pre post f ctx _ _ _ _ _ _ Hpre Hf) as Hrun.
  assert (Hgen : chooseServiceConfigWith (pre ++ f :: post) ctx configs w =
                 (if instanceofUnsupportedOperation e
                  then (Return (Some NoOpServiceRef), fallbackWorld e ctx w2)
                  else (Throw e, w2))).
  { rewrite chooseServiceConfigWith_run, Hrun. reflexivity. }
  split; [exact Hgen|]. split; [reflexivity|].
  intros Hfns.
  assert (He : instanceofUnsupportedOperation e = true).
  { eapply operationFilterFns_throw_unsupported; [|exact Hf].
    rewrite <- Hfns. apply in_or_app. right. now left. }
  split; [exact He|].
  unfold chooseServiceConfig. rewrite <- Hfns, Hgen, He. reflexivity.
Qed.

(** X6. [chooseServiceConfig] always returns a descriptor reference: no run
    of it ends in an exception or in [undefined]. *)
Lemma chooseServiceConfig_total
    (ctx : RequestContext) (configs : list ServiceConfig) (w : World) :
  exists r w', chooseServiceConfig ctx configs w = (Return (Some r), w').
Proof.
  unfold chooseServiceConfig. rewrite chooseServiceConfigWith_run.
  destruct (applyFilters operationFilterFns ctx configs w) as [r w1] eqn:Hrun.
  apply applyFilters_inv in Hrun as [_ [[msg ->] | [-> Hne]]].
  - simpl. eauto.
  - destruct (filter _ configs) as [|c cs]; [contradiction|].
    simpl. eauto.
Qed.

(** C4. On an empty candidate list [chooseServiceConfig] returns the
    [noOpService] singleton, for every operation and context: the
    collection stage finds nothing and throws, and the [catch] block
    turns that into the fallback. No exception leaves the call. *)
Theorem chooseServiceConfig_no_candidates
    (ctx : RequestContext) (w : World) :
  chooseServiceConfig ctx [] w =
    (Return (Some NoOpServiceRef),
     fallbackWorld
       (UnsupportedOperation "no services are configured for the collection")
       ctx w).
Proof. reflexivity. Qed.

End SelectorFacts.

(** A stage passing and the next one failing, on the stages the chooser
    really runs: no candidate serves the collection. *)
Lemma chooseServiceConfig_unsupported_falls_back_witness :
  chooseServiceConfigWith operationFilterFns Samples.noContext []
    (Samples.world Samples.plainOperation)
  = (Return (Some NoOpServiceRef),
     fallbackWorld
       (UnsupportedOperation "no services are configured for the collection")
       Samples.noContext (Samples.world Samples.plainOperation))
  /\ message (noOpService
       (fallbackWorld
          (UnsupportedOperation "no services are configured for the collection")
          Samples.noContext (Samples.world Samples.plainOperation)))
     = Some "no operations can be performed on C1-TEST".
Proof.
  pose proof (chooseServiceConfig_unsupported_falls_back
                operationFilterFns [] 
                [filterVariableSubsettingMatches; filterOutputFormatMatches;
                 filterSpatialSubsettingMatches]
                filterCollectionMatches Samples.noContext [] []
                (Samples.world Samples.plainOperation)
                (Samples.world Samples.plainOperation)
                (Samples.world Samples.plainOperation)
                (UnsupportedOperation "no services are configured for the collection")
                eq_refl eq_refl eq_refl) as [Hrun _].
  split; [exact Hrun | reflexivity].
Defined.

(** The explanation is built from the operation as the failing stage
    left it: here the format stage has resolved [*/*] to "image/png" before
    the spatial stage gives up, and the message names that format. *)
Example explanation_uses_resolved_format :
  chooseServiceConfig Samples.anyOnly [Samples.pngService]
    (Samples.world Samples.boxOperation)
  = (Return (Some NoOpServiceRef),
     {| operation := setOutputFormat "image/png" Samples.boxOperation;
        noOpService :=
          setMessage
            "the requested combination of operations: spatial subsetting and reformatting to image/png on C1-TEST is unsupported"
            noOpServiceInitial;
        logged :=
          ["Returning download links because none of the services configured for the collection support spatial subsetting."] |}).
Proof. reflexivity. Qed.

(** An error of another class, thrown by a stage, leaves
    [chooseServiceConfig]'s loop unchanged. *)
Example chooseServiceConfigWith_rethrows :
  chooseServiceConfigWith [filterCollectionMatches; Samples.brokenStage]
    Samples.noContext [Samples.pngService] (Samples.world Samples.plainOperation)
  = (Throw (TypeError "configs.filter is not a function"),
     Samples.world Samples.plainOperation).
Proof. reflexivity. Qed.

(* ================================================================== *)
(** ** The explanation message *)
(* ================================================================== *)

Lemma join_includes (sep : string) (items : list string) (x : string) :
  In x items -> Js.includes (Js.join sep items) x.
Proof.
  induction items as [|a items IH]; [intros []|].
  intros [-> | Hin].
  - destruct items as [|b items]; cbn [Js.join].
    + apply includes_refl.
    + apply includes_app_l, includes_refl.
  - destruct items as [|b items]; [destruct Hin|].
    cbn [Js.join]. apply includes_app_r, includes_app_r, IH, Hin.
Qed.

(** The reference enumeration shows every item it is given. *)
Lemma reference_listToText_includes (items : list string) (x : string) :
  In x items -> Js.includes (Reference.listToText items) x.
Proof.
  intros Hin.
  destruct items as [|a [|b [|c rest]]].
  - destruct Hin.
  - destruct Hin as [-> | []]. apply includes_refl.
  - cbn [Reference.listToText].
    destruct Hin as [-> | [-> | []]].
    + apply includes_app_l, includes_refl.
    + apply includes_app_r, includes_app_r, includes_refl.
  - unfold Reference.listToText.
    set (l := a :: b :: c :: rest) in *.
    assert (Hne : l <> []) by (subst l; discriminate).
    rewrite (app_removelast_last "" Hne) in Hin.
    apply in_app_or in Hin as [Hin | [<- | []]].
    + apply includes_app_l, join_includes, Hin.
    + apply includes_app_r, includes_app_r, includes_refl.
Qed.

Lemma filter_none {A} (p : A -> bool) (l : list A) :
  (forall x, In x l -> p x = false) -> filter p l = [].
Proof.
  induction l as [|a l IH]; intros Hp; simpl; [reflexivity|].
  rewrite (Hp a (or_introl eq_refl)). apply IH.
  intros x Hx. apply Hp. now right.
Qed.

Section MessageFacts.

Context `{Imports}.

Lemma wildcards_filtered_out (types : list string) :
  Forall (fun f => f = "*" \/ f = "*/*") types ->
  filter (fun f => negb (f =? "*") && negb (f =? "*/*")) types = [].
Proof.
  intros Hall. apply filter_none. intros x Hx.
  rewrite Forall_forall in Hall.
  destruct (Hall x Hx) as [-> | ->]; reflexivity.
Qed.

(** C9. A request that asks for neither variable nor spatial subsetting,
    names no output format on the operation and accepts only the mime
    types [*] and [*/*] is not a reformatting request: the explanation is
    exactly "no operations can be performed on" followed by the
    enumeration of the operation's collections. *)
Theorem unsupportedCombinationMessage_wildcards_are_not_reformatting
    (op : DataOperation) (ctx : RequestContext) :
  requiresVariableSubsetting op = false ->
  requiresSpatialSubsetting op = false ->
  Js.isTruthy (outputFormat op) = false ->
  (forall types, requestedMimeTypes ctx = Some types ->
                 Forall (fun f => f = "*" \/ f = "*/*") types) ->
  unsupportedCombinationMessage op ctx =
    "no operations can be performed on "
      ++ listToText (map collection (sources op)).
Proof.
  intros Hvar Hbox Hfmt Htypes.
  assert (Hre : Js.nonEmpty (reformattingFormats op ctx) = false).
  { unfold reformattingFormats. unfold Js.isTruthy in Hfmt.
    destruct (Js.truthy (outputFormat op)); [discriminate|].
    destruct (requestedMimeTypes ctx) as [types|] eqn:Hctx; [|reflexivity].
    cbn [option_map]. now rewrite (wildcards_filtered_out types (Htypes _ eq_refl)). }
  unfold unsupportedCombinationMessage, requestedOptions.
  rewrite Hvar, Hbox, Hre. reflexivity.
Qed.

Lemma requestedOptions_variable_first
    (op : DataOperation) (ctx : RequestContext) :
  requiresVariableSubsetting op = true ->
  exists rest, requestedOptions op ctx = "variable subsetting" :: rest.
Proof.
  intros Hvar. unfold requestedOptions. rewrite Hvar. cbn [app].
  eexists. reflexivity.
Qed.

Lemma unsupportedCombinationMessage_names_variable_subsetting
    (op : DataOperation) (ctx : RequestContext) :
  (forall items x, In x items -> Js.includes (listToText items) x) ->
  requiresVariableSubsetting op = true ->
  Js.includes (unsupportedCombinationMessage op ctx) "variable subsetting".
Proof.
  intros Hshow Hvar.
  destruct (requestedOptions_variable_first op ctx Hvar) as [rest Hopts].
  unfold unsupportedCombinationMessage. rewrite Hopts. cbn [List.length Nat.ltb Nat.leb].
  apply includes_app_r, includes_app_l, Hshow. now left.
Qed.

(** C5. When the operation names a variable on some source and none of
    the candidates that match its collections is flagged for variable
    subsetting, [chooseServiceConfig] returns the [noOpService] singleton
    and the explanation it stores there contains "variable subsetting"
    (for a [listToText] that shows each of its items). The
    variable-subsetting stage narrows the candidates only for such an
    operation: for one that names no variable it hands on, unchanged,
    every candidate the collection stage passed to it. *)
Theorem chooseServiceConfig_variable_subsetting_unsupported
    (ctx : RequestContext) (configs : list ServiceConfig) (w : World) :
  (forall items x, In x items -> Js.includes (listToText items) x) ->
  requiresVariableSubsetting (operation w) = true ->
  (forall c, In c configs ->
             isCollectionMatch (operation w) c = true ->
             subsetting_variable (capabilities c) = false) ->
  (exists e msg,
      chooseServiceConfig ctx configs w
        = (Return (Some NoOpServiceRef), fallbackWorld e ctx w)
      /\ messageOf (fallbackWorld e ctx w) NoOpServiceRef = Some msg
      /\ msg = unsupportedCombinationMessage (operation w) ctx
      /\ Js.includes msg "variable subsetting")
  /\ (forall ctx0 cs w0 m w1,
         requiresVariableSubsetting (operation w0) = false ->
         filterCollectionMatches ctx0 cs w0 = (Return m, w1) ->
         filterVariableSubsettingMatches ctx0 m w1 = (Return m, w1)).
Proof.
  intros Hshow Hvar Hnone. split.
  - assert (Hrun : exists e,
               applyFilters operationFilterFns ctx configs w = (Throw e, w)
               /\ instanceofUnsupportedOperation e = true).
    { unfold operationFilterFns. cbn [applyFilters]. unfold bind at 1.
      rewrite filterCollectionMatches_eq.
      destruct (filter (isCollectionMatch (operation w)) configs)
        as [|c cs] eqn:Hm1.
      - rewrite orUnsupported_nil. eexists. split; reflexivity.
      - rewrite orUnsupported_cons. unfold bind at 1.
        rewrite filterVariableSubsettingMatches_eq, Hvar.
        assert (Hm2 : supportsVariableSubsetting (c :: cs) = []).
        { apply filter_none. intros x Hx. rewrite <- Hm1 in Hx.
          apply filter_In in Hx as [Hin Hmatch]. now apply Hnone. }
        rewrite Hm2, orUnsupported_nil. eexists. split; reflexivity. }
    destruct Hrun as (e & Hrun & He).
    exists e, (unsupportedCombinationMessage (operation w) ctx).
    repeat split.
    + unfold chooseServiceConfig.
      rewrite chooseServiceConfigWith_run, Hrun, He. reflexivity.
    + now apply unsupportedCombinationMessage_names_variable_subsetting.
  - intros ctx0 cs w0 m w1 Hvar0 Hstage.
    rewrite filterCollectionMatches_eq in Hstage.
    apply orUnsupported_inv in Hstage as [-> [[Hr Hne] | [Hr _]]];
      [|discriminate].
    injection Hr as Hm. subst m.
    rewrite filterVariableSubsettingMatches_eq, Hvar0.
    destruct (filter (isCollectionMatch (operation w0)) cs);
      [contradiction | apply orUnsupported_cons].
Qed.

End MessageFacts.

Lemma unsupportedCombinationMessage_wildcards_are_not_reformatting_witness :
  unsupportedCombinationMessage Samples.plainOperation Samples.anyOnly
  = "no operations can be performed on C1-TEST".
Proof.
  refine (unsupportedCombinationMessage_wildcards_are_not_reformatting
            Samples.plainOperation Samples.anyOnly eq_refl eq_refl eq_refl _).
  intros types [= <-].
  apply Forall_cons; [now right|]. apply Forall_cons; [now left|]. apply Forall_nil.
Defined.

Lemma chooseServiceConfig_variable_subsetting_unsupported_witness :
  exists e msg,
    chooseServiceConfig Samples.pngThenAny
      [Samples.tiffService; Samples.pngService]
      (Samples.world Samples.variableOperation)
    = (Return (Some NoOpServiceRef),
       fallbackWorld e Samples.pngThenAny (Samples.world Samples.variableOperation))
    /\ messageOf
         (fallbackWorld e Samples.pngThenAny
            (Samples.world Samples.variableOperation))
         NoOpServiceRef = Some msg
    /\ msg = unsupportedCombinationMessage Samples.variableOperation Samples.pngThenAny
    /\ Js.includes msg "variable subsetting".
Proof.
  apply (chooseServiceConfig_variable_subsetting_unsupported
           Samples.pngThenAny [Samples.tiffService; Samples.pngService]
           (Samples.world Samples.variableOperation)).
  - exact reference_listToText_includes.
  - reflexivity.
  - intros c [<- | [<- | []]] _; reflexivity.
Defined.

(** The explanation of that run, in full. *)
Example variable_subsetting_explanation :
  unsupportedCombinationMessage Samples.variableOperation Samples.pngThenAny
  = "the requested combination of operations: variable subsetting and reformatting to image/png on C1-TEST is unsupported".
Proof. reflexivity. Qed.

(* ================================================================== *)
(** ** Format resolution and the tie-break *)
(* ================================================================== *)

Section FormatFacts.

Context `{Imports}.

(** C3. With no output format preset on the operation, the context types
    [["image/png"; "*/*"]] and the two candidates declaring
    [["image/tiff"]] and [["image/png"; "image/tiff"]], the output-format
    stage assigns "image/png" to [operation.outputFormat] and passes on
    the second candidate alone. The mime matcher is the imported
    [isMimeTypeAccepted]; what is used of it is that the type "image/png"
    accepts the format "image/png" and not the format "image/tiff". *)
Theorem filterOutputFormatMatches_prefers_png
    (ctx : RequestContext) (c1 c2 : ServiceConfig) (w : World) :
  Js.isTruthy (outputFormat (operation w)) = false ->
  requestedMimeTypes ctx = Some ["image/png"; "*/*"] ->
  output_formats (capabilities c1) = ["image/tiff"] ->
  output_formats (capabilities c2) = ["image/png"; "image/tiff"] ->
  isMimeTypeAccepted "image/png" "image/png" = true ->
  isMimeTypeAccepted "image/tiff" "image/png" = false ->
  filterOutputFormatMatches ctx [c1; c2] w
    = (Return [c2], formatAssigned "image/png" w)
  /\ outputFormat (operation (formatAssigned "image/png" w)) = Some "image/png".
Proof.
  intros Hunset Hctx Hc1 Hc2 Hpng Htiff. split; [|reflexivity].
  assert (Hsel : selectServicesForFormat "image/png" [c1; c2] = [c2]).
  { unfold selectServicesForFormat, findAccepted. cbn [filter].
    rewrite Hc1, Hc2. cbn [find]. rewrite Hpng, Htiff. reflexivity. }
  assert (Hfmt : selectFormat (operation w) ctx [c1; c2] = Some "image/png").
  { unfold selectFormat. rewrite Hunset, Hctx. cbn [negb andb Js.nonEmpty].
    cbn [selectFormatLoop]. rewrite Hsel.
    unfold findAccepted. rewrite Hc2. cbn [find]. rewrite Hpng. reflexivity. }
  unfold filterOutputFormatMatches, bind, getOperation.
  rewrite Hunset, Hctx, Hfmt. cbn [orb Js.nonEmpty Js.truthy String.eqb Ascii.eqb Bool.eqb].
  unfold assignOutputFormat, ret. fold (formatAssigned "image/png" w).
  rewrite Hsel. apply orUnsupported_cons.
Qed.

(** C6. When no stage signals [UnsupportedOperation],
    [chooseServiceConfig] returns a candidate: the first one of the input
    list, in its order, that passes all four stages. Every candidate
    before it fails some stage; so if the head of the list passes them
    all, the head is chosen, whatever follows it. *)
Theorem chooseServiceConfig_first_survivor
    (ctx : RequestContext) (configs : list ServiceConfig) (w : World) :
  (forall msg w1,
      applyFilters operationFilterFns ctx configs w
      <> (Throw (UnsupportedOperation msg), w1)) ->
  exists c pre post w',
    chooseServiceConfig ctx configs w = (Return (Some (Candidate c)), w')
    /\ configs = (pre ++ c :: post)%list
    /\ survivesAllStages (operation w') c = true
    /\ Forall (fun x => survivesAllStages (operation w') x = false) pre
    /\ (forall a rest,
           configs = a :: rest ->
           survivesAllStages (operation w') a = true ->
           c = a).
Proof.
  intros Hsupported.
  destruct (applyFilters operationFilterFns ctx configs w) as [r w'] eqn:Hrun.
  pose proof (applyFilters_inv _ _ _ _ _ Hrun) as [_ [[msg ->] | [-> Hne]]].
  - exfalso. now apply (Hsupported msg w').
  - destruct (filter (survivesAllStages (operation w')) configs)
      as [|c cs] eqn:Hsurv; [contradiction|].
    destruct (filter_head_split _ _ _ _ Hsurv)
      as (pre & post & Hsplit & Hc & Hpre & _).
    exists c, pre, post, w'. repeat split; auto.
    + unfold chooseServiceConfig.
      now rewrite chooseServiceConfigWith_run, Hrun.
    + intros a rest Hcons Ha. rewrite Hcons in Hsurv.
      cbn [filter] in Hsurv. rewrite Ha in Hsurv. now injection Hsurv.
Qed.

End FormatFacts.

Lemma filterOutputFormatMatches_prefers_png_witness :
  filterOutputFormatMatches Samples.pngThenAny
    [Samples.tiffService; Samples.pngService]
    (Samples.world Samples.plainOperation)
  = (Return [Samples.pngService],
     formatAssigned "image/png" (Samples.world Samples.plainOperation))
  /\ outputFormat
       (operation (formatAssigned "image/png" (Samples.world Samples.plainOperation)))
     = Some "image/png".
Proof.
  exact (filterOutputFormatMatches_prefers_png
           Samples.pngThenAny Samples.tiffService Samples.pngService
           (Samples.world Samples.plainOperation)
           eq_refl eq_refl eq_refl eq_refl eq_refl eq_refl).
Defined.

(** Two candidates that both pass every stage: the one declared first is
    returned. *)
Lemma chooseServiceConfig_first_survivor_witness :
  exists c pre post w',
    chooseServiceConfig Samples.noContext
      [Samples.tiffService; Samples.pngService]
      (Samples.world Samples.plainOperation)
    = (Return (Some (Candidate c)), w')
    /\ [Samples.tiffService; Samples.pngService] = (pre ++ c :: post)%list
    /\ survivesAllStages (operation w') c = true
    /\ Forall (fun x => survivesAllStages (operation w') x = false) pre
    /\ (forall a rest,
           [Samples.tiffService; Samples.pngService] = a :: rest ->
           survivesAllStages (operation w') a = true ->
           c = a).
Proof.
  apply (chooseServiceConfig_first_survivor Samples.noContext
           [Samples.tiffService; Samples.pngService]
           (Samples.world Samples.plainOperation)).
  intros msg w1. vm_compute. discriminate.
Defined.

Example tie_break_first_declared :
  chooseServiceConfig Samples.noContext
    [Samples.tiffService; Samples.pngService]
    (Samples.world Samples.plainOperation)
  = (Return (Some (Candidate Samples.tiffService)),
     Samples.world Samples.plainOperation)
  /\ chooseServiceConfig Samples.noContext
       [Samples.pngService; Samples.tiffService]
       (Samples.world Samples.plainOperation)
     = (Return (Some (Candidate Samples.pngService)),
        Samples.world Samples.plainOperation).
Proof. split; reflexivity. Qed.

(* ================================================================== *)
(** ** What selection writes *)
(* ================================================================== *)

Section EffectFacts.

Context `{Imports}.

(** C8, as the code has it. A call of [chooseServiceConfig] assigns the
    operation at most once, and only its [outputFormat], to a non-empty
    format; every other field of the operation stays as it was. If a
    candidate is returned, it is one of those passed in, and neither the
    [noOpService] singleton nor the log is touched. If selection falls
    back, the call also overwrites [noOpService.message] with the
    explanation and writes one line to the log. *)
Theorem chooseServiceConfig_effects
    (ctx : RequestContext) (configs : list ServiceConfig) (w w' : World)
    (r : Outcome (option ConfigRef)) :
  chooseServiceConfig ctx configs w = (r, w') ->
  (operation w' = operation w
   \/ exists fmt,
       Js.truthy (Some fmt) = Some fmt
       /\ operation w' = setOutputFormat fmt (operation w))
  /\ (sources (operation w') = sources (operation w)
      /\ boundingRectangle (operation w') = boundingRectangle (operation w)
      /\ temporal (operation w') = temporal (operation w)
      /\ granuleIds (operation w') = granuleIds (operation w)
      /\ callback (operation w') = callback (operation w))
  /\ ((exists c,
          r = Return (Some (Candidate c))
          /\ In c configs
          /\ noOpService w' = noOpService w
          /\ logged w' = logged w)
      \/ (r = Return (Some NoOpServiceRef)
          /\ noOpService w'
             = setMessage (unsupportedCombinationMessage (operation w') ctx)
                 (noOpService w)
          /\ exists line, logged w' = (logged w ++ [line])%list)).
Proof.
  unfold chooseServiceConfig. rewrite chooseServiceConfigWith_run.
  destruct (applyFilters operationFilterFns ctx configs w) as [r1 w1] eqn:Hrun.
  apply applyFilters_inv in Hrun as [Hworld Hres].
  assert (Hop : operation w1 = operation w
                \/ exists fmt, Js.truthy (Some fmt) = Some fmt
                               /\ operation w1 = setOutputFormat fmt (operation w)).
  { destruct Hworld as [-> | (fmt & Hfmt & ->)]; [now left|].
    right. now exists fmt. }
  assert (Hrest : noOpService w1 = noOpService w /\ logged w1 = logged w).
  { destruct Hworld as [-> | (fmt & _ & ->)]; now split. }
  assert (Hframe : sources (operation w1) = sources (operation w)
                   /\ boundingRectangle (operation w1) = boundingRectangle (operation w)
                   /\ temporal (operation w1) = temporal (operation w)
                   /\ granuleIds (operation w1) = granuleIds (operation w)
                   /\ callback (operation w1) = callback (operation w)).
  { destruct Hop as [-> | (fmt & _ & ->)]; now repeat split. }
  destruct Hrest as [HnoOp Hlog].
  destruct Hres as [[msg ->] | [-> Hne]].
  - cbn [instanceofUnsupportedOperation]. intros [= <- <-].
    split; [exact Hop|]. split; [exact Hframe|]. right.
    split; [reflexivity|]. cbn [fallbackWorld noOpService logged operation].
    rewrite HnoOp, Hlog. split; [reflexivity|]. eexists. reflexivity.
  - destruct (filter (survivesAllStages (operation w1)) configs)
      as [|c cs] eqn:Hsurv; [contradiction|].
    cbn [first]. intros [= <- <-].
    split; [exact Hop|]. split; [exact Hframe|]. left.
    exists c. repeat split; auto.
    assert (Hin : In c (filter (survivesAllStages (operation w1)) configs))
      by (rewrite Hsurv; now left).
    now apply filter_In in Hin.
Qed.

(** C10. The fallback is one object. When two calls in a row both fall
    back (the second possibly on another operation, context and candidate
    list), both return the same reference, the [noOpService] singleton;
    after the first call its [message] is the first explanation, and after
    the second call the object the first call returned carries the
    second explanation, its other fields being what they were. *)
Theorem noOpService_message_overwritten
    (ctx1 ctx2 : RequestContext) (configs1 configs2 : list ServiceConfig)
    (op2 : DataOperation) (w wa wb : World) (e1 e2 : Exn) :
  applyFilters operationFilterFns ctx1 configs1 w = (Throw e1, wa) ->
  applyFilters operationFilterFns ctx2 configs2
    (withOperation op2 (snd (chooseServiceConfig ctx1 configs1 w)))
    = (Throw e2, wb) ->
  exists r1 w1 r2 w2,
    chooseServiceConfig ctx1 configs1 w = (Return (Some r1), w1)
    /\ chooseServiceConfig ctx2 configs2 (withOperation op2 w1)
       = (Return (Some r2), w2)
    /\ r1 = NoOpServiceRef
    /\ r2 = r1
    /\ messageOf w1 r1 = Some (unsupportedCombinationMessage (operation wa) ctx1)
    /\ messageOf w2 r1 = Some (unsupportedCombinationMessage (operation wb) ctx2)
    /\ noOpName (noOpService w2) = noOpName (noOpService w)
    /\ noOpType (noOpService w2) = noOpType (noOpService w)
    /\ noOpOutputFormats (noOpService w2) = noOpOutputFormats (noOpService w).
Proof.
  intros Hrun1 Hrun2.
  assert (He1 : exists m1, e1 = UnsupportedOperation m1).
  { pose proof (applyFilters_inv _ _ _ _ _ Hrun1) as [_ [[m Hm] | [Hr _]]];
      [injection Hm as ->; now exists m | discriminate]. }
  destruct He1 as [m1 ->].
  assert (Hc1 : chooseServiceConfig ctx1 configs1 w
                = (Return (Some NoOpServiceRef),
                   fallbackWorld (UnsupportedOperation m1) ctx1 wa)).
  { unfold chooseServiceConfig.
    now rewrite chooseServiceConfigWith_run, Hrun1. }
  rewrite Hc1 in Hrun2. cbn [snd] in Hrun2.
  assert (He2 : exists m2, e2 = UnsupportedOperation m2).
  { pose proof (applyFilters_inv _ _ _ _ _ Hrun2) as [_ [[m Hm] | [Hr _]]];
      [injection Hm as ->; now exists m | discriminate]. }
  destruct He2 as [m2 ->].
  pose proof (applyFilters_inv _ _ _ _ _ Hrun1) as [Hw1 _].
  pose proof (applyFilters_inv _ _ _ _ _ Hrun2) as [Hw2 _].
  exists NoOpServiceRef, (fallbackWorld (UnsupportedOperation m1) ctx1 wa),
    NoOpServiceRef, (fallbackWorld (UnsupportedOperation m2) ctx2 wb).
  split; [exact Hc1|]. split.
  { unfold chooseServiceConfig.
    now rewrite chooseServiceConfigWith_run, Hrun2. }
  repeat split.
  all: destruct Hw1 as [-> | (f1 & _ & ->)];
    destruct Hw2 as [-> | (f2 & _ & ->)]; reflexivity.
Qed.

End EffectFacts.

(** C8, as the specification words it, fails: a call that falls back also writes
    to the [noOpService] singleton and to the log, so more than the
    operation's output format has changed. *)
Lemma chooseServiceConfig_not_side_effect_free :
  ~ sameExceptOutputFormat
      (Samples.world Samples.plainOperation)
      (snd (chooseServiceConfig Samples.noContext []
              (Samples.world Samples.plainOperation))).
Proof.
  intros (HnoOp & _). vm_compute in HnoOp. discriminate.
Qed.

Lemma chooseServiceConfig_effects_witness :
  (operation (formatAssigned "image/png" (Samples.world Samples.plainOperation))
   = Samples.plainOperation
   \/ exists fmt,
       Js.truthy (Some fmt) = Some fmt
       /\ operation (formatAssigned "image/png" (Samples.world Samples.plainOperation))
          = setOutputFormat fmt Samples.plainOperation)
  /\ callback (operation (formatAssigned "image/png"
                            (Samples.world Samples.plainOperation)))
     = callback Samples.plainOperation.
Proof.
  pose proof (chooseServiceConfig_effects Samples.pngThenAny
                [Samples.tiffService; Samples.pngService]
                (Samples.world Samples.plainOperation)
                (formatAssigned "image/png" (Samples.world Samples.plainOperation))
                (Return (Some (Candidate Samples.pngService)))
                eq_refl) as (Hop & (_ & _ & _ & _ & Hcb) & _).
  split; [exact Hop | exact Hcb].
Defined.

(** Two fallbacks in a row: first nothing serves the collection of a plain
    request, then nothing supports the variables of another one. *)
Lemma noOpService_message_overwritten_witness :
  exists r1 w1 r2 w2,
    chooseServiceConfig Samples.noContext [] (Samples.world Samples.plainOperation)
      = (Return (Some r1), w1)
    /\ chooseServiceConfig Samples.pngThenAny [Samples.pngService]
         (withOperation Samples.variableOperation w1)
       = (Return (Some r2), w2)
    /\ r1 = NoOpServiceRef
    /\ r2 = r1
    /\ messageOf w1 r1 = Some "no operations can be performed on C1-TEST"
    /\ messageOf w2 r1
       = Some "the requested combination of operations: variable subsetting and reformatting to image/png on C1-TEST is unsupported"
    /\ noOpName (noOpService w2) = "noOpService"
    /\ noOpType (noOpService w2) = noOpType noOpServiceInitial
    /\ noOpOutputFormats (noOpService w2) = ["application/json"].
Proof.
  exact (noOpService_message_overwritten
           Samples.noContext Samples.pngThenAny [] [Samples.pngService]
           Samples.variableOperation
           (Samples.world Samples.plainOperation)
           (Samples.world Samples.plainOperation)
           (withOperation Samples.variableOperation
              (snd (chooseServiceConfig Samples.noContext []
                      (Samples.world Samples.plainOperation))))
           (UnsupportedOperation "no services are configured for the collection")
           (UnsupportedOperation
              "none of the services configured for the collection support variable subsetting")
           eq_refl eq_refl).
Defined.

(* ================================================================== *)
(** ** The service factory *)
(* ================================================================== *)

(** X10. For a mechanism tag that is not a member of [Object.prototype],
    [buildService] does what its documentation says: [NotFoundError] when
    no class is registered for the tag, the asynchronizer around the
    registered class when the descriptor is flagged [synchronous_only] or
    [single_granule_requests], the registered class itself otherwise. *)
Lemma buildService_own_tags
    (noOp : NoOpServiceConfig) (serviceConfig : ConfigRef)
    (operation : DataOperation) :
  let type := Factory.typeOf noOp serviceConfig in
  existsb (String.eqb (typeName type)) Factory.objectPrototypeKeys = false ->
  Factory.buildService noOp serviceConfig operation =
    match Factory.registeredClass (typeName type) with
    | None => Throw (NotFoundError Factory.notFoundMessage)
    | Some cls =>
        if synchronous_only type || single_granule_requests type
        then Return (Factory.AsynchronizerInstance (Factory.Registered cls)
                       serviceConfig operation)
        else Return (Factory.ServiceInstance cls serviceConfig operation)
    end.
Proof.
  intros type Hown.
  unfold Factory.buildService, Factory.getProperty, Factory.registeredClass.
  fold type.
  destruct (Factory.ownProperty (typeName type) Factory.serviceTypesToServiceClasses)
    as [cls|]; [reflexivity|].
  now rewrite Hown.
Qed.

(** C7 at the tag "constructor". No adapter class is registered for it,
    yet the bracket read finds [Object] on the prototype chain, the
    [!ServiceClass] test passes and [buildService] raises no
    [NotFoundError]: it returns what [new Object(serviceConfig, operation)]
    returns, the descriptor itself. With the descriptor flagged
    [synchronous_only] it wraps [Object] in the asynchronizer. *)
Theorem buildService_inherited_tag_not_rejected :
  Factory.registeredClass (typeName (type Samples.inheritedTagService)) = None
  /\ Factory.buildService noOpServiceInitial
       (Candidate Samples.inheritedTagService) Samples.plainOperation
     = Return (Factory.ConfigObject (Candidate Samples.inheritedTagService))
  /\ forall (c : ServiceConfig) (op : DataOperation),
       typeName (type c) = "constructor" ->
       synchronous_only (type c) = true ->
       Factory.buildService noOpServiceInitial (Candidate c) op
       = Return (Factory.AsynchronizerInstance
                   (Factory.Inherited "constructor") (Candidate c) op).
Proof.
  split; [reflexivity|]. split; [reflexivity|].
  intros c op Hname Hsync.
  unfold Factory.buildService. cbn [Factory.typeOf].
  rewrite Hname, Hsync. reflexivity.
Qed.

Example buildService_unknown_tag :
  Factory.buildService noOpServiceInitial
    (Candidate {| name := "x";
                  type := {| typeName := "docker";
                             synchronous_only := false;
                             single_granule_requests := false |};
                  collections := [];
                  capabilities := {| output_formats := [];
                                     subsetting_variable := false;
                                     subsetting_bbox := false |} |})
    Samples.plainOperation
  = Throw (NotFoundError Factory.notFoundMessage).
Proof. reflexivity. Qed.

Example buildService_noOp :
  Factory.buildService noOpServiceInitial NoOpServiceRef Samples.plainOperation
  = Return (Factory.ServiceInstance Factory.NoOpService NoOpServiceRef
              Samples.plainOperation).
Proof. reflexivity. Qed.

(* ================================================================== *)
(** ** The local Docker adapter *)
(* ================================================================== *)

Section AdapterFacts.

Variable isUrlBound : string -> bool.
Variable serialize : DataOperation -> string.
Variable CALLBACK_HOST : option string.

(** The exit listener remembers the callback URL the operation had when
    [_invokeAsync] was entered, not the one rewritten for the container. *)
Lemma invokeAsync_keeps_original_callback
    (self : LocalDocker.Service) (inv : LocalDocker.Invocation) :
  LocalDocker.invokeAsync serialize CALLBACK_HOST self = Return inv ->
  LocalDocker.originalCallback inv
  = callback (LocalDocker.serviceOperation self).
Proof.
  unfold LocalDocker.invokeAsync.
  destruct (LocalDocker.configName self =? "podaac-cloud/l2-subsetter-service").
  - unfold LocalDocker.dropFirstGranules.
    destruct (sources (LocalDocker.serviceOperation self)) as [|s rest];
      [discriminate|].
    intros [= <-]. reflexivity.
  - intros [= <-]. reflexivity.
Qed.

Lemma posts_onExit (originalCallback : string)
    (code : option Z) (signal : option string) :
  LocalDocker.posts (LocalDocker.onExit isUrlBound originalCallback code signal)
  = if isUrlBound originalCallback
    then [LocalDocker.Post (originalCallback ++ "/response")
            [("error", LocalDocker.unknownError)]]
    else [].
Proof.
  unfold LocalDocker.onExit. destruct (isUrlBound originalCallback); reflexivity.
Qed.

(** C2, as the code has it. When the child of a started invocation
    exits, with whatever code or signal, the adapter looks only at
    whether the operation's original callback URL is still bound. If it
    is, the adapter posts exactly one request, to that URL's [/response],
    with the error "Service request failed with an unknown error."; if it
    is not (the child has delivered its notification), it posts
    nothing. *)
Theorem exit_listener_posts_iff_callback_bound
    (self : LocalDocker.Service) (inv : LocalDocker.Invocation)
    (code : option Z) (signal : option string) :
  LocalDocker.invokeAsync serialize CALLBACK_HOST self = Return inv ->
  LocalDocker.posts
    (LocalDocker.onExit isUrlBound (LocalDocker.originalCallback inv) code signal)
  = if isUrlBound (callback (LocalDocker.serviceOperation self))
    then [LocalDocker.Post
            (callback (LocalDocker.serviceOperation self) ++ "/response")
            [("error", "Service request failed with an unknown error.")]]
    else [].
Proof.
  intros Hinv.
  rewrite posts_onExit, (invokeAsync_keeps_original_callback _ _ Hinv).
  reflexivity.
Qed.

End AdapterFacts.

(** C2, as the specification words it, fails: a child that exits with code 1 after
    its notification was delivered (the callback URL is no longer bound)
    draws no synthetic failure notification from the adapter. *)
Lemma exit_nonzero_after_notification_posts_nothing :
  Some 1%Z <> Some 0%Z
  /\ LocalDocker.posts
       (LocalDocker.onExit Samples.boundNowhere
          "http://localhost:3000/service/abc" (Some 1%Z) None)
     <> [LocalDocker.Post "http://localhost:3000/service/abc/response"
           [("error", "Service request failed with an unknown error.")]].
Proof. split; discriminate. Qed.

(** A child that exits with code 0 while the callback URL is still bound:
    one synthetic failure, sent to the original URL and not to the one
    rewritten for the container. *)
Lemma exit_listener_posts_iff_callback_bound_witness :
  LocalDocker.posts
    (LocalDocker.onExit Samples.boundEverywhere
       "http://localhost:3000/service/abc" (Some 0%Z) None)
  = [LocalDocker.Post "http://localhost:3000/service/abc/response"
       [("error", "Service request failed with an unknown error.")]].
Proof.
  exact (exit_listener_posts_iff_callback_bound
           Samples.boundEverywhere Samples.serializeCallback None
           Samples.dockerService
           {| LocalDocker.service :=
                {| LocalDocker.configName := "harmony/example";
                   LocalDocker.params := LocalDocker.params Samples.dockerService;
                   LocalDocker.serviceOperation :=
                     setCallback "http://host.docker.internal:3000/service/abc"
                       Samples.plainOperation |};
              LocalDocker.effects :=
                [ LocalDocker.LogParams (LocalDocker.params Samples.dockerService);
                  LocalDocker.LogInfo
                    "run --rm -t -e EDL_USERNAME=u harmony/example --harmony-action invoke --harmony-input http://host.docker.internal:3000/service/abc";
                  LocalDocker.Spawn "docker"
                    [ "run"; "--rm"; "-t"; "-e"; "EDL_USERNAME=u";
                      "harmony/example"; "--harmony-action"; "invoke";
                      "--harmony-input";
                      "http://host.docker.internal:3000/service/abc" ] ];
              LocalDocker.originalCallback := "http://localhost:3000/service/abc" |}
           (Some 0%Z) None eq_refl).
Defined.

Example exit_listener_log_line :
  LocalDocker.onExit Samples.boundNowhere "http://localhost:3000/service/abc"
    (Some 137%Z) (Some "SIGKILL")
  = [LocalDocker.LogInfo "child process exited with code 137 and signal SIGKILL"].
Proof. reflexivity. Qed.

(* ================================================================== *)
(** ** Format resolution in detail *)
(* ================================================================== *)

Section ResolutionFacts.

Context `{Imports}.

Lemma selectServicesForFormat_In
    (format : string) (configs : list ServiceConfig) (config : ServiceConfig) :
  In config (selectServicesForFormat format configs) ->
  In config configs
  /\ exists f, In f (output_formats (capabilities config))
               /\ isMimeTypeAccepted f format = true
               /\ f <> "".
Proof.
  unfold selectServicesForFormat. intros Hin.
  apply filter_In in Hin as [Hin Htruthy]. split; [exact Hin|].
  apply isTruthy_truthy in Htruthy as [f Hf].
  apply truthy_Some in Hf as [Hfind Hne].
  unfold findAccepted in Hfind. apply find_some in Hfind as [Hf Hacc].
  now exists f.
Qed.

Lemma selectFormatLoop_sound
    (mimeTypes : list string) (configs : list ServiceConfig) :
  forall (initial : option string) (fmt : string),
    Js.isTruthy initial = false ->
    Js.truthy (selectFormatLoop initial mimeTypes configs) = Some fmt ->
    exists mimeType config,
      In mimeType mimeTypes
      /\ In config configs
      /\ In fmt (output_formats (capabilities config))
      /\ isMimeTypeAccepted fmt mimeType = true.
Proof.
  induction mimeTypes as [|mimeType rest IH]; intros initial fmt Hinit Hfmt.
  - cbn [selectFormatLoop] in Hfmt. unfold Js.isTruthy in Hinit.
    rewrite Hfmt in Hinit. discriminate.
  - cbn [selectFormatLoop] in Hfmt.
    destruct (selectServicesForFormat mimeType configs) as [|c cs] eqn:Hsel.
    + rewrite Hinit in Hfmt.
      destruct (IH initial fmt Hinit Hfmt) as (m & config & Hm & Hrest).
      exists m, config. split; [now right | exact Hrest].
    + assert (Hc : In c configs).
      { apply (selectServicesForFormat_In mimeType). rewrite Hsel. now left. }
      destruct (Js.isTruthy (findAccepted (output_formats (capabilities c)) mimeType))
        eqn:Hfound.
      * apply truthy_Some in Hfmt as [Hfind _].
        unfold findAccepted in Hfind. apply find_some in Hfind as [Hin Hacc].
        exists mimeType, c. repeat split; auto. now left.
      * destruct (IH _ fmt Hfound Hfmt) as (m & config & Hm & Hrest).
        exists m, config. split; [now right | exact Hrest].
Qed.

(** X1. The format that [selectFormat] resolves for an operation without a
    preset format is never invented: it is a format some candidate
    declares, and one of the caller's acceptable mime types accepts it. *)
Theorem selectFormat_resolves_declared_format
    (op : DataOperation) (ctx : RequestContext)
    (configs : list ServiceConfig) (fmt : string) :
  Js.isTruthy (outputFormat op) = false ->
  Js.truthy (selectFormat op ctx configs) = Some fmt ->
  exists mimeTypes mimeType config,
    requestedMimeTypes ctx = Some mimeTypes
    /\ In mimeType mimeTypes
    /\ In config configs
    /\ In fmt (output_formats (capabilities config))
    /\ isMimeTypeAccepted fmt mimeType = true.
Proof.
  intros Hunset Hfmt. unfold selectFormat in Hfmt. rewrite Hunset in Hfmt.
  cbn [negb andb] in Hfmt.
  destruct (requestedMimeTypes ctx) as [mimeTypes|] eqn:Hctx.
  - destruct (Js.nonEmpty (Some mimeTypes)).
    + destruct (selectFormatLoop_sound mimeTypes configs _ fmt Hunset Hfmt)
        as (m & config & Hrest).
      now exists mimeTypes, m, config.
    + unfold Js.isTruthy in Hunset. rewrite Hfmt in Hunset. discriminate.
  - cbn [Js.nonEmpty] in Hfmt.
    unfold Js.isTruthy in Hunset. rewrite Hfmt in Hunset. discriminate.
Qed.

Lemma selectFormatLoop_skips_unsatisfiable
    (pre : list string) (rest : list string) (configs : list ServiceConfig)
    (initial : option string) :
  Js.isTruthy initial = false ->
  (forall p, In p pre -> selectServicesForFormat p configs = []) ->
  selectFormatLoop initial (pre ++ rest)%list configs
  = selectFormatLoop initial rest configs.
Proof.
  intros Hinit. induction pre as [|p pre IH]; intros Hpre; [reflexivity|].
  cbn [app selectFormatLoop].
  rewrite (Hpre p (or_introl eq_refl)), Hinit.
  apply IH. intros q Hq. apply Hpre. now right.
Qed.

(** X2. Preference order. The caller's mime types are tried in order; the
    first one for which some candidate declares an acceptable format
    decides, and the format resolved is the first acceptable format, in
    declaration order, of the first such candidate in candidate order.
    Later mime types and later candidates play no part. *)
Theorem selectFormat_first_satisfiable_type
    (op : DataOperation) (ctx : RequestContext) (configs others : list ServiceConfig)
    (pre post : list string) (mimeType : string) (firstConfig : ServiceConfig) :
  Js.isTruthy (outputFormat op) = false ->
  requestedMimeTypes ctx = Some (pre ++ mimeType :: post)%list ->
  (forall p, In p pre -> selectServicesForFormat p configs = []) ->
  selectServicesForFormat mimeType configs = firstConfig :: others ->
  selectFormat op ctx configs
    = findAccepted (output_formats (capabilities firstConfig)) mimeType
  /\ Js.isTruthy (selectFormat op ctx configs) = true.
Proof.
  intros Hunset Hctx Hpre Hsel.
  assert (Htruthy : Js.isTruthy
                      (findAccepted (output_formats (capabilities firstConfig))
                         mimeType) = true).
  { assert (Hin : In firstConfig (selectServicesForFormat mimeType configs))
      by (rewrite Hsel; now left).
    unfold selectServicesForFormat in Hin. now apply filter_In in Hin. }
  assert (Heq : selectFormat op ctx configs
                = findAccepted (output_formats (capabilities firstConfig)) mimeType).
  { unfold selectFormat. rewrite Hunset, Hctx. cbn [negb andb].
    assert (Hne : Js.nonEmpty (Some (pre ++ mimeType :: post)%list) = true)
      by (destruct pre; reflexivity).
    rewrite Hne.
    rewrite (selectFormatLoop_skips_unsatisfiable pre _ configs _ Hunset Hpre).
    cbn [selectFormatLoop]. rewrite Hsel, Htruthy. reflexivity. }
  split; [exact Heq | now rewrite Heq].
Qed.

End ResolutionFacts.

Lemma selectFormat_resolves_declared_format_witness :
  exists mimeTypes mimeType config,
    requestedMimeTypes Samples.pngThenAny = Some mimeTypes
    /\ In mimeType mimeTypes
    /\ In config [Samples.tiffService; Samples.pngService]
    /\ In "image/png" (output_formats (capabilities config))
    /\ isMimeTypeAccepted "image/png" mimeType = true.
Proof.
  exact (selectFormat_resolves_declared_format
           Samples.plainOperation Samples.pngThenAny
           [Samples.tiffService; Samples.pngService] "image/png"
           eq_refl eq_refl).
Defined.

(** [text/csv] first, which nobody offers, then any type: the first
    candidate's first format is taken. *)
Lemma selectFormat_first_satisfiable_type_witness :
  selectFormat Samples.plainOperation
    {| requestedMimeTypes := Some ["text/csv"; "*/*"; "image/png"] |}
    [Samples.tiffService; Samples.pngService]
  = Some "image/tiff"
  /\ Js.isTruthy
       (selectFormat Samples.plainOperation
          {| requestedMimeTypes := Some ["text/csv"; "*/*"; "image/png"] |}
          [Samples.tiffService; Samples.pngService]) = true.
Proof.
  refine (selectFormat_first_satisfiable_type
            Samples.plainOperation
            {| requestedMimeTypes := Some ["text/csv"; "*/*"; "image/png"] |}
            [Samples.tiffService; Samples.pngService] [Samples.pngService]
            ["text/csv"] ["image/png"] "*/*" Samples.tiffService
            eq_refl eq_refl _ eq_refl).
  intros p [<- | []]. reflexivity.
Defined.

(* ================================================================== *)
(** ** Successful selections *)
(* ================================================================== *)

Section SuccessFacts.

Context `{Imports}.

(** The stages of a run that ends with candidates, one after the other. *)
Lemma applyFilters_success
    (ctx : RequestContext) (configs matches : list ServiceConfig) (w w' : World) :
  applyFilters operationFilterFns ctx configs w = (Return matches, w') ->
  exists m1 m2 m3,
    m1 = filter (isCollectionMatch (operation w)) configs /\ m1 <> []
    /\ m2 = (if requiresVariableSubsetting (operation w)
             then supportsVariableSubsetting m1 else m1) /\ m2 <> []
    /\ ((Js.isTruthy (outputFormat (operation w))
           || Js.nonEmpty (requestedMimeTypes ctx) = false
         /\ w' = w /\ m3 = m2)
        \/ (exists fmt,
               Js.isTruthy (outputFormat (operation w))
                 || Js.nonEmpty (requestedMimeTypes ctx) = true
               /\ Js.truthy (selectFormat (operation w) ctx m2) = Some fmt
               /\ w' = formatAssigned fmt w
               /\ m3 = selectServicesForFormat fmt m2))
    /\ m3 <> []
    /\ matches = (if requiresSpatialSubsetting (operation w)
                  then supportsSpatialSubsetting m3 else m3)
    /\ matches <> [].
Proof.
  unfold operationFilterFns. cbn [applyFilters]. unfold bind at 1.
  rewrite filterCollectionMatches_eq.
  destruct (orUnsupported (filter (isCollectionMatch (operation w)) configs) _ w)
    as [r1 w1] eqn:H1.
  apply orUnsupported_inv in H1 as [-> [[-> Hne1] | [-> _]]]; [|discriminate].
  unfold bind at 1. rewrite filterVariableSubsettingMatches_eq.
  set (m1 := filter (isCollectionMatch (operation w)) configs) in *.
  destruct (orUnsupported _ _ w) as [r2 w2] eqn:H2.
  apply orUnsupported_inv in H2 as [-> [[-> Hne2] | [-> _]]]; [|discriminate].
  set (m2 := if requiresVariableSubsetting (operation w)
             then supportsVariableSubsetting m1 else m1) in *.
  unfold bind at 1.
  destruct (filterOutputFormatMatches ctx m2 w) as [r3 w3] eqn:H3.
  apply filterOutputFormatMatches_cases in H3.
  destruct H3 as [(Hask & -> & Hr3) | [(Hask & Hnone & -> & [msg ->])
                                       | (fmt & Hask & Hfmt & -> & Hr3)]].
  - destruct Hr3 as [[-> Hne3] | [Hnil _]]; [|contradiction].
    cbn [applyFilters]. unfold bind at 1.
    rewrite filterSpatialSubsettingMatches_eq.
    destruct (orUnsupported _ _ w) as [r4 w4] eqn:H4.
    apply orUnsupported_inv in H4 as [-> [[-> Hne4] | [-> _]]]; [|discriminate].
    unfold ret. intros [= <- <-].
    exists m1, m2, m2. repeat split; auto.
  - discriminate.
  - destruct Hr3 as [[-> Hne3] | [_ [msg ->]]]; [|discriminate].
    cbn [applyFilters]. unfold bind at 1.
    rewrite filterSpatialSubsettingMatches_eq.
    destruct (orUnsupported _ _ (formatAssigned fmt w)) as [r4 w4] eqn:H4.
    apply orUnsupported_inv in H4 as [-> [[-> Hne4] | [-> _]]]; [|discriminate].
    unfold ret. intros [= <- <-].
    exists m1, m2, (selectServicesForFormat fmt m2).
    repeat split; auto. right. exists fmt. repeat split; auto.
Qed.

Lemma selectFormat_preset
    (op : DataOperation) (ctx : RequestContext) (configs : list ServiceConfig) :
  Js.isTruthy (outputFormat op) = true ->
  selectFormat op ctx configs = outputFormat op.
Proof. intros Hset. unfold selectFormat. now rewrite Hset. Qed.

(** The output-format stage for an operation that names its format: the
    context plays no part. *)
Lemma filterOutputFormatMatches_preset
    (ctx : RequestContext) (configs : list ServiceConfig) (w : World) (fmt : string) :
  Js.truthy (outputFormat (operation w)) = Some fmt ->
  filterOutputFormatMatches ctx configs w
  = orUnsupported (selectServicesForFormat fmt configs)
      ("none of the services configured for the collection support "
         ++ "reformatting to any of the requested formats "
         ++ "[" ++ fmt ++ "]")
      (formatAssigned fmt w).
Proof.
  intros Hfmt.
  assert (Hset : Js.isTruthy (outputFormat (operation w)) = true)
    by (apply isTruthy_truthy; now exists fmt).
  unfold filterOutputFormatMatches, bind, getOperation.
  rewrite Hset, (selectFormat_preset _ ctx configs Hset), Hfmt.
  cbn [orb]. unfold assignOutputFormat, ret. fold (formatAssigned fmt w).
  unfold requestedFormatsText, formatAssigned.
  cbn [operation setOutputFormat outputFormat].
  now rewrite (truthy_idem _ _ Hfmt).
Qed.

Lemma unsupportedCombinationMessage_preset
    (op : DataOperation) (ctx1 ctx2 : RequestContext) :
  Js.isTruthy (outputFormat op) = true ->
  unsupportedCombinationMessage op ctx1 = unsupportedCombinationMessage op ctx2.
Proof.
  intros Hset. apply isTruthy_truthy in Hset as [fmt Hfmt].
  unfold unsupportedCombinationMessage, requestedOptions, reformattingFormats.
  now rewrite Hfmt.
Qed.

(** X3. A format named by the operation overrides the caller's acceptable
    mime types altogether: with such an operation, the descriptor returned,
    the explanation stored on a fallback and the line logged are the same
    for every context. *)
Theorem chooseServiceConfig_preset_format_ignores_context
    (ctx1 ctx2 : RequestContext) (configs : list ServiceConfig) (w : World) :
  Js.isTruthy (outputFormat (operation w)) = true ->
  chooseServiceConfig ctx1 configs w = chooseServiceConfig ctx2 configs w.
Proof.
  intros Hset. pose proof Hset as Htruthy.
  apply isTruthy_truthy in Htruthy as [fmt Hfmt].
  assert (Hrun : applyFilters operationFilterFns ctx1 configs w
                 = applyFilters operationFilterFns ctx2 configs w).
  { unfold operationFilterFns. cbn [applyFilters]. unfold bind.
    rewrite !filterCollectionMatches_eq.
    destruct (orUnsupported (filter (isCollectionMatch (operation w)) configs) _ w)
      as [r1 w1] eqn:H1.
    apply orUnsupported_inv in H1 as [-> [[-> _] | [-> _]]]; [|reflexivity].
    rewrite !filterVariableSubsettingMatches_eq.
    destruct (orUnsupported _ _ w) as [r2 w2] eqn:H2.
    apply orUnsupported_inv in H2 as [-> [[-> _] | [-> _]]]; [|reflexivity].
    rewrite !(filterOutputFormatMatches_preset _ _ _ _ Hfmt).
    destruct (orUnsupported _ _ (formatAssigned fmt w)) as [r3 w3].
    destruct r3; reflexivity. }
  unfold chooseServiceConfig. rewrite !chooseServiceConfigWith_run, Hrun.
  destruct (applyFilters operationFilterFns ctx2 configs w) as [[m|e] w1] eqn:Hrun2;
    [reflexivity|].
  destruct (instanceofUnsupportedOperation e); [|reflexivity].
  assert (Hset1 : Js.isTruthy (outputFormat (operation w1)) = true).
  { apply applyFilters_inv in Hrun2 as [[-> | (f & Hf & ->)] _]; [exact Hset|].
    apply isTruthy_truthy. now exists f. }
  unfold fallbackWorld.
  now rewrite (unsupportedCombinationMessage_preset _ ctx1 ctx2 Hset1).
Qed.

(** X4. Selecting twice. After a call that returned a candidate, a second call
    with the same context and candidates returns that same candidate and
    changes nothing: the format resolved by the first call is the format
    the second call is asked for. *)
Theorem chooseServiceConfig_idempotent_on_success
    (ctx : RequestContext) (configs : list ServiceConfig) (w w' : World)
    (c : ServiceConfig) :
  chooseServiceConfig ctx configs w = (Return (Some (Candidate c)), w') ->
  chooseServiceConfig ctx configs w' = (Return (Some (Candidate c)), w').
Proof.
  unfold chooseServiceConfig. rewrite !chooseServiceConfigWith_run.
  destruct (applyFilters operationFilterFns ctx configs w) as [[m|e] w1] eqn:Hrun.
  2:{ destruct (instanceofUnsupportedOperation e); discriminate. }
  intros Hres. injection Hres as Hfirst <-.
  assert (Hagain : applyFilters operationFilterFns ctx configs w1 = (Return m, w1)).
  { destruct (applyFilters_success _ _ _ _ _ Hrun)
      as (m1 & m2 & m3 & Hm1 & Hne1 & Hm2 & Hne2 & Hstage3 & Hne3 & Hm & Hne).
    destruct Hstage3 as [(_ & -> & _) | (fmt & _ & Hfmt & -> & Hm3)];
      [exact Hrun|].
    pose proof (truthy_idem _ _ Hfmt) as Hidem.
    unfold operationFilterFns. cbn [applyFilters]. unfold bind.
    rewrite filterCollectionMatches_eq.
    change (filter (isCollectionMatch (operation (formatAssigned fmt w))) configs)
      with (filter (isCollectionMatch (operation w)) configs).
    rewrite <- Hm1.
    destruct m1 as [|a1 l1]; [contradiction|]. rewrite orUnsupported_cons.
    rewrite filterVariableSubsettingMatches_eq.
    change (requiresVariableSubsetting (operation (formatAssigned fmt w)))
      with (requiresVariableSubsetting (operation w)).
    rewrite <- Hm2.
    destruct m2 as [|a2 l2]; [contradiction|]. rewrite orUnsupported_cons.
    rewrite (filterOutputFormatMatches_preset ctx _ (formatAssigned fmt w) fmt Hidem).
    change (formatAssigned fmt (formatAssigned fmt w)) with (formatAssigned fmt w).
    rewrite <- Hm3.
    destruct m3 as [|a3 l3]; [contradiction|]. rewrite orUnsupported_cons.
    rewrite filterSpatialSubsettingMatches_eq.
    change (requiresSpatialSubsetting (operation (formatAssigned fmt w)))
      with (requiresSpatialSubsetting (operation w)).
    rewrite <- Hm.
    destruct m as [|a4 l4]; [contradiction|]. now rewrite orUnsupported_cons. }
  now rewrite Hagain, Hfirst.
Qed.

(** X5. What a caller may rely on in a returned candidate: it is one of the
    candidates, it serves every collection of the operation, it supports
    variable subsetting if the operation names variables and spatial
    subsetting if it has a bounding rectangle; and if a format was asked
    for, by the operation or by the context, the operation now names a
    format that this candidate declares support for. *)
Theorem chooseServiceConfig_candidate_is_capable
    (ctx : RequestContext) (configs : list ServiceConfig) (w w' : World)
    (c : ServiceConfig) :
  chooseServiceConfig ctx configs w = (Return (Some (Candidate c)), w') ->
  In c configs
  /\ (forall s, In s (sources (operation w)) ->
                In (collection s) (collections c))
  /\ (requiresVariableSubsetting (operation w) = true ->
      subsetting_variable (capabilities c) = true)
  /\ (requiresSpatialSubsetting (operation w) = true ->
      subsetting_bbox (capabilities c) = true)
  /\ (Js.isTruthy (outputFormat (operation w))
        || Js.nonEmpty (requestedMimeTypes ctx) = true ->
      exists fmt f,
        Js.truthy (outputFormat (operation w')) = Some fmt
        /\ In f (output_formats (capabilities c))
        /\ isMimeTypeAccepted f fmt = true).
Proof.
  unfold chooseServiceConfig. rewrite chooseServiceConfigWith_run.
  destruct (applyFilters operationFilterFns ctx configs w) as [[m|e] w1] eqn:Hrun.
  2:{ destruct (instanceofUnsupportedOperation e); discriminate. }
  intros Hres. injection Hres as Hfirst <-.
  destruct m as [|c0 rest]; [discriminate|]. injection Hfirst as ->.
  destruct (applyFilters_success _ _ _ _ _ Hrun)
    as (m1 & m2 & m3 & Hm1 & _ & Hm2 & _ & Hstage3 & _ & Hm & _).
  assert (Hin4 : In c (c :: rest)) by now left.
  assert (Hin3 : In c m3
                 /\ (requiresSpatialSubsetting (operation w) = true ->
                     subsetting_bbox (capabilities c) = true)).
  { rewrite Hm in Hin4.
    destruct (requiresSpatialSubsetting (operation w)).
    - apply filter_In in Hin4 as [Hin Hflag]. now split.
    - split; [exact Hin4 | discriminate]. }
  destruct Hin3 as [Hin3 Hbox].
  assert (Hin2 : In c m2
                 /\ (Js.isTruthy (outputFormat (operation w))
                       || Js.nonEmpty (requestedMimeTypes ctx) = true ->
                     exists fmt f,
                       Js.truthy (outputFormat (operation w1)) = Some fmt
                       /\ In f (output_formats (capabilities c))
                       /\ isMimeTypeAccepted f fmt = true)).
  { destruct Hstage3 as [(Hask & -> & ->) | (fmt & _ & Hfmt & -> & ->)].
    - split; [exact Hin3|]. intros Hasked. rewrite Hasked in Hask. discriminate.
    - apply selectServicesForFormat_In in Hin3 as [Hin (f & Hf & Hacc & _)].
      split; [exact Hin|]. intros _. exists fmt, f.
      split; [exact (truthy_idem _ _ Hfmt) | now split]. }
  destruct Hin2 as [Hin2 Hformat].
  assert (Hin1 : In c m1
                 /\ (requiresVariableSubsetting (operation w) = true ->
                     subsetting_variable (capabilities c) = true)).
  { rewrite Hm2 in Hin2.
    destruct (requiresVariableSubsetting (operation w)).
    - apply filter_In in Hin2 as [Hin Hflag]. now split.
    - split; [exact Hin2 | discriminate]. }
  destruct Hin1 as [Hin1 Hvar].
  rewrite Hm1 in Hin1. apply filter_In in Hin1 as [Hin Hmatch].
  repeat split; auto.
  intros s Hs. unfold isCollectionMatch in Hmatch.
  rewrite forallb_forall in Hmatch. specialize (Hmatch s Hs).
  apply existsb_exists in Hmatch as (x & Hx & Heq).
  apply String.eqb_eq in Heq. now rewrite Heq.
Qed.

End SuccessFacts.

Lemma chooseServiceConfig_preset_format_ignores_context_witness :
  chooseServiceConfig Samples.noContext
    [Samples.tiffService; Samples.pngService]
    (Samples.world MoreSamples.pngOperation)
  = chooseServiceConfig Samples.pngThenAny
      [Samples.tiffService; Samples.pngService]
      (Samples.world MoreSamples.pngOperation).
Proof.
  exact (chooseServiceConfig_preset_format_ignores_context
           Samples.noContext Samples.pngThenAny
           [Samples.tiffService; Samples.pngService]
           (Samples.world MoreSamples.pngOperation) eq_refl).
Defined.

Lemma chooseServiceConfig_idempotent_on_success_witness :
  chooseServiceConfig Samples.pngThenAny
    [Samples.tiffService; Samples.pngService]
    (formatAssigned "image/png" (Samples.world Samples.plainOperation))
  = (Return (Some (Candidate Samples.pngService)),
     formatAssigned "image/png" (Samples.world Samples.plainOperation)).
Proof.
  exact (chooseServiceConfig_idempotent_on_success
           Samples.pngThenAny [Samples.tiffService; Samples.pngService]
           (Samples.world Samples.plainOperation)
           (formatAssigned "image/png" (Samples.world Samples.plainOperation))
           Samples.pngService eq_refl).
Defined.

Lemma chooseServiceConfig_candidate_is_capable_witness :
  In Samples.pngService [Samples.tiffService; Samples.pngService]
  /\ exists fmt f,
       Js.truthy (outputFormat
                    (operation (formatAssigned "image/png"
                                  (Samples.world Samples.plainOperation))))
       = Some fmt
       /\ In f (output_formats (capabilities Samples.pngService))
       /\ isMimeTypeAccepted f fmt = true.
Proof.
  pose proof (chooseServiceConfig_candidate_is_capable
                Samples.pngThenAny [Samples.tiffService; Samples.pngService]
                (Samples.world Samples.plainOperation)
                (formatAssigned "image/png" (Samples.world Samples.plainOperation))
                Samples.pngService eq_refl) as (Hin & _ & _ & _ & Hfmt).
  split; [exact Hin | exact (Hfmt eq_refl)].
Defined.

(* ================================================================== *)
(** ** Supported collections and selection *)
(* ================================================================== *)

Lemma head_filter_find {A} (p : A -> bool) (l : list A) :
  find p l = match filter p l with x :: _ => Some x | [] => None end.
Proof.
  induction l as [|a l IH]; simpl; [reflexivity|].
  destruct (p a); [reflexivity | exact IH].
Qed.

Section SupportFacts.

Context `{Imports}.

Lemma isCollectionSupported_false
    (serviceConfigs : list ServiceConfig) (collectionId : string) :
  isCollectionSupported serviceConfigs collectionId = false ->
  forall sc, In sc serviceConfigs ->
             existsb (String.eqb collectionId) (collections sc) = false.
Proof.
  unfold isCollectionSupported. intros Hfind sc Hin.
  destruct (find _ serviceConfigs) eqn:Hf; [discriminate|].
  exact (find_none _ _ Hf sc Hin).
Qed.

(** X7. A collection that [isCollectionSupported] reports as having no
    backend can never be served: whatever else an operation on it asks
    for, and whatever the context, [chooseServiceConfig] over the same
    descriptors falls back to the [noOpService] singleton, at the first
    stage. *)
Theorem unsupported_collection_always_falls_back
    (ctx : RequestContext) (serviceConfigs : list ServiceConfig) (w : World)
    (s : Source) :
  isCollectionSupported serviceConfigs (collection s) = false ->
  In s (sources (operation w)) ->
  chooseServiceConfig ctx serviceConfigs w
  = (Return (Some NoOpServiceRef),
     fallbackWorld
       (UnsupportedOperation "no services are configured for the collection")
       ctx w).
Proof.
  intros Hunsupported Hs.
  assert (Hnone : filter (isCollectionMatch (operation w)) serviceConfigs = []).
  { apply filter_none. intros sc Hsc. unfold isCollectionMatch.
    apply not_true_is_false. intros Hall.
    rewrite forallb_forall in Hall. specialize (Hall s Hs).
    now rewrite (isCollectionSupported_false _ _ Hunsupported sc Hsc) in Hall. }
  unfold chooseServiceConfig. rewrite chooseServiceConfigWith_run.
  unfold operationFilterFns. cbn [applyFilters]. unfold bind.
  now rewrite filterCollectionMatches_eq, Hnone, orUnsupported_nil.
Qed.

(** X8. A collection that [isCollectionSupported] reports as having a backend
    is served when nothing more is asked: for an operation on that
    collection alone, with no variables, no bounding rectangle and no
    format wanted, [chooseServiceConfig] returns the very descriptor that
    [isCollectionSupported] found, the first one listing the collection,
    and changes nothing. *)
Theorem supported_collection_is_served
    (ctx : RequestContext) (serviceConfigs : list ServiceConfig) (w : World)
    (collectionId : string) :
  isCollectionSupported serviceConfigs collectionId = true ->
  sources (operation w) <> [] ->
  (forall s, In s (sources (operation w)) -> collection s = collectionId) ->
  requiresVariableSubsetting (operation w) = false ->
  requiresSpatialSubsetting (operation w) = false ->
  Js.isTruthy (outputFormat (operation w)) = false ->
  Js.nonEmpty (requestedMimeTypes ctx) = false ->
  exists sc,
    find (fun sc => existsb (String.eqb collectionId) (collections sc))
      serviceConfigs = Some sc
    /\ chooseServiceConfig ctx serviceConfigs w = (Return (Some (Candidate sc)), w).
Proof.
  intros Hsupported Hsources Hall Hvar Hbox Hfmt Htypes.
  unfold isCollectionSupported in Hsupported.
  destruct (find _ serviceConfigs) as [sc|] eqn:Hfind; [|discriminate].
  exists sc. split; [reflexivity|].
  assert (Hsame : filter (isCollectionMatch (operation w)) serviceConfigs
                  = filter (fun sc => existsb (String.eqb collectionId) (collections sc))
                      serviceConfigs).
  { apply filter_ext. intros a. unfold isCollectionMatch.
    destruct (sources (operation w)) as [|s0 rest] eqn:Hsrc; [contradiction|].
    destruct (existsb (String.eqb collectionId) (collections a)) eqn:Ha.
    - apply forallb_forall. intros s Hs. now rewrite (Hall s Hs).
    - cbn [forallb]. now rewrite (Hall s0 (or_introl eq_refl)), Ha. }
  rewrite head_filter_find, <- Hsame in Hfind.
  destruct (filter (isCollectionMatch (operation w)) serviceConfigs)
    as [|c cs] eqn:Hm1; [discriminate|].
  injection Hfind as ->.
  unfold chooseServiceConfig. rewrite chooseServiceConfigWith_run.
  unfold operationFilterFns. cbn [applyFilters]. unfold bind.
  rewrite filterCollectionMatches_eq, Hm1, orUnsupported_cons.
  rewrite filterVariableSubsettingMatches_eq, Hvar, orUnsupported_cons.
  unfold filterOutputFormatMatches, bind, getOperation.
  rewrite Hfmt, Htypes. cbn [orb]. unfold ret. rewrite orUnsupported_cons.
  rewrite filterSpatialSubsettingMatches_eq, Hbox, orUnsupported_cons.
  reflexivity.
Qed.

(** X9. Selection followed by construction. If every candidate has a
    registered mechanism tag and the [noOpService] singleton still has the
    type it was declared with, then [buildService] applied to whatever
    [chooseServiceConfig] returns never fails: it yields an adapter of a
    registered class, wrapped in the asynchronizer exactly when the chosen
    descriptor is flagged [synchronous_only] or [single_granule_requests].
    In particular a fallback always builds the [NoOpService] adapter. *)
Theorem chosen_descriptor_can_be_built
    (ctx : RequestContext) (configs : list ServiceConfig) (w : World) :
  (forall c, In c configs ->
             Factory.registeredClass (typeName (type c)) <> None) ->
  noOpType (noOpService w) = noOpType noOpServiceInitial ->
  exists r w' cls,
    chooseServiceConfig ctx configs w = (Return (Some r), w')
    /\ Factory.registeredClass
         (typeName (Factory.typeOf (noOpService w') r)) = Some cls
    /\ Factory.buildService (noOpService w') r (operation w')
       = (if synchronous_only (Factory.typeOf (noOpService w') r)
             || single_granule_requests (Factory.typeOf (noOpService w') r)
          then Return (Factory.AsynchronizerInstance (Factory.Registered cls)
                         r (operation w'))
          else Return (Factory.ServiceInstance cls r (operation w')))
    /\ (r = NoOpServiceRef ->
        Factory.buildService (noOpService w') r (operation w')
        = Return (Factory.ServiceInstance Factory.NoOpService r (operation w'))).
Proof.
  intros Hregistered HnoOp.
  unfold chooseServiceConfig. rewrite chooseServiceConfigWith_run.
  destruct (applyFilters operationFilterFns ctx configs w) as [r1 w1] eqn:Hrun.
  pose proof (applyFilters_inv _ _ _ _ _ Hrun) as [Hworld Hres].
  assert (HnoOp1 : noOpService w1 = noOpService w).
  { destruct Hworld as [-> | (fmt & _ & ->)]; reflexivity. }
  destruct Hres as [[msg ->] | [-> Hne]].
  - cbn [instanceofUnsupportedOperation].
    exists NoOpServiceRef, (fallbackWorld (UnsupportedOperation msg) ctx w1),
      Factory.NoOpService.
    assert (Htype : Factory.typeOf
                      (noOpService (fallbackWorld (UnsupportedOperation msg) ctx w1))
                      NoOpServiceRef
                    = noOpType noOpServiceInitial).
    { cbn [Factory.typeOf fallbackWorld noOpService setMessage noOpType].
      now rewrite HnoOp1, HnoOp. }
    assert (Hbuild : Factory.buildService
                       (noOpService (fallbackWorld (UnsupportedOperation msg) ctx w1))
                       NoOpServiceRef
                       (operation (fallbackWorld (UnsupportedOperation msg) ctx w1))
                     = Return (Factory.ServiceInstance Factory.NoOpService
                                 NoOpServiceRef
                                 (operation (fallbackWorld (UnsupportedOperation msg)
                                               ctx w1)))).
    { unfold Factory.buildService. rewrite Htype. reflexivity. }
    split; [reflexivity|]. rewrite Htype.
    split; [reflexivity|]. split; [exact Hbuild | intros _; exact Hbuild].
  - destruct (filter (survivesAllStages (operation w1)) configs)
      as [|c cs] eqn:Hsurv; [contradiction|].
    assert (Hin : In c configs).
    { assert (Hc : In c (filter (survivesAllStages (operation w1)) configs))
        by (rewrite Hsurv; now left).
      now apply filter_In in Hc. }
    specialize (Hregistered c Hin).
    destruct (Factory.registeredClass (typeName (type c))) as [cls|] eqn:Hcls;
      [|contradiction].
    exists (Candidate c), w1, cls. cbn [first Factory.typeOf].
    split; [reflexivity|]. split; [exact Hcls|].
    split; [|discriminate].
    unfold Factory.buildService, Factory.getProperty. cbn [Factory.typeOf].
    unfold Factory.registeredClass in Hcls. rewrite Hcls. reflexivity.
Qed.

End SupportFacts.

Lemma unsupported_collection_always_falls_back_witness :
  chooseServiceConfig Samples.pngThenAny [MoreSamples.queueService]
    (Samples.world Samples.variableOperation)
  = (Return (Some NoOpServiceRef),
     fallbackWorld
       (UnsupportedOperation "no services are configured for the collection")
       Samples.pngThenAny (Samples.world Samples.variableOperation)).
Proof.
  refine (unsupported_collection_always_falls_back
            Samples.pngThenAny [MoreSamples.queueService]
            (Samples.world Samples.variableOperation)
            {| collection := "C1-TEST"; variables := Some ["V1"]; granules := ["G1"] |}
            eq_refl _).
  now left.
Defined.

Lemma supported_collection_is_served_witness :
  exists sc,
    find (fun sc => existsb (String.eqb "C1-TEST") (collections sc))
      [MoreSamples.queueService; Samples.pngService; Samples.tiffService] = Some sc
    /\ chooseServiceConfig Samples.noContext
         [MoreSamples.queueService; Samples.pngService; Samples.tiffService]
         (Samples.world Samples.plainOperation)
       = (Return (Some (Candidate sc)), Samples.world Samples.plainOperation).
Proof.
  refine (supported_collection_is_served
            Samples.noContext
            [MoreSamples.queueService; Samples.pngService; Samples.tiffService]
            (Samples.world Samples.plainOperation) "C1-TEST"
            eq_refl _ _ eq_refl eq_refl eq_refl eq_refl).
  - discriminate.
  - intros s [<- | []]. reflexivity.
Defined.

Lemma chosen_descriptor_can_be_built_witness :
  exists r w' cls,
    chooseServiceConfig Samples.noContext
      [MoreSamples.queueService; Samples.pngService]
      (Samples.world Samples.plainOperation) = (Return (Some r), w')
    /\ Factory.registeredClass
         (typeName (Factory.typeOf (noOpService w') r)) = Some cls
    /\ Factory.buildService (noOpService w') r (operation w')
       = (if synchronous_only (Factory.typeOf (noOpService w') r)
             || single_granule_requests (Factory.typeOf (noOpService w') r)
          then Return (Factory.AsynchronizerInstance (Factory.Registered cls)
                         r (operation w'))
          else Return (Factory.ServiceInstance cls r (operation w')))
    /\ (r = NoOpServiceRef ->
        Factory.buildService (noOpService w') r (operation w')
        = Return (Factory.ServiceInstance Factory.NoOpService r (operation w'))).
Proof.
  refine (chosen_descriptor_can_be_built
            Samples.noContext [MoreSamples.queueService; Samples.pngService]
            (Samples.world Samples.plainOperation) _ eq_refl).
  intros c [<- | [<- | []]]; discriminate.
Defined.

Lemma buildService_own_tags_witness :
  Factory.buildService noOpServiceInitial (Candidate MoreSamples.queueService)
    Samples.plainOperation
  = Return (Factory.AsynchronizerInstance
              (Factory.Registered Factory.MessageQueueService)
              (Candidate MoreSamples.queueService) Samples.plainOperation).
Proof.
  exact (buildService_own_tags noOpServiceInitial
           (Candidate MoreSamples.queueService) Samples.plainOperation eq_refl).
Defined.

(* ================================================================== *)
(** ** Environment references in the configuration *)
(* ================================================================== *)

Lemma stripPrefix_app (p r : string) : Js.stripPrefix p (p ++ r) = Some r.
Proof.
  induction p as [|a p IH]; cbn [Js.stripPrefix append].
  - now destruct r.
  - now rewrite Ascii.eqb_refl.
Qed.

Lemma stripPrefix_Some (p s r : string) :
  Js.stripPrefix p s = Some r -> s = p ++ r.
Proof.
  revert s. induction p as [|a p IH]; intros s.
  - destruct s; cbn; now intros [= ->].
  - destruct s as [|b s]; cbn [Js.stripPrefix]; [discriminate|].
    destruct (Ascii.eqb_spec a b) as [->|]; [|discriminate].
    intros Hs. cbn [append]. now rewrite (IH _ Hs).
Qed.


Section LoaderFacts.

Variable processEnv : string -> option string.


Lemma matchAt_not_dollar (c : ascii) (rest : string) :
  Ascii.eqb "$" c = false -> Loader.matchAt (String c rest) = None.
Proof.
  intros Hc. unfold Loader.matchAt. cbn [Js.stripPrefix]. now rewrite Hc.
Qed.

Lemma replaceFrom_prefix (pre s : string) :
  Loader.lacks "$" pre = true ->
  Loader.replaceFrom processEnv 0 (pre ++ s)
  = pre ++ Loader.replaceFrom processEnv 0 s.
Proof.
  induction pre as [|c pre IH]; intros Hlacks; [reflexivity|].
  cbn [Loader.lacks] in Hlacks. apply andb_prop in Hlacks as [Hc Hpre].
  apply negb_true_iff in Hc.
  cbn [append Loader.replaceFrom].
  rewrite (matchAt_not_dollar c (pre ++ s) Hc). now rewrite (IH Hpre).
Qed.

Lemma replaceFrom_empty : Loader.replaceFrom processEnv 0 "" = "".
Proof. reflexivity. Qed.






(** X11. A scalar without a dollar sign goes through the [!Env] type
    unchanged. *)
Theorem construct_without_dollar (data : string) :
  Loader.lacks "$" data = true ->
  Loader.construct processEnv data = data.
Proof.
  intros Hlacks. unfold Loader.construct.
  rewrite <- (string_app_empty_r data) at 1.
  rewrite (replaceFrom_prefix data "" Hlacks), replaceFrom_empty.
  apply string_app_empty_r.
Qed.


End LoaderFacts.

Lemma construct_without_dollar_witness :
  Loader.construct MoreSamples.environment "harmony/gdal:latest"
  = "harmony/gdal:latest".
Proof.
  exact (construct_without_dollar MoreSamples.environment
           "harmony/gdal:latest" eq_refl).
Defined.


Example construct_leaves_bare_dollars :
  Loader.construct MoreSamples.environment "$STAGING_BUCKET ${} ${a-b} ${STAGING_BUCKET"
  = "$STAGING_BUCKET ${} ${a-b} ${STAGING_BUCKET".
Proof. reflexivity. Qed.

(* ================================================================== *)
(** ** The granule locator *)
(* ================================================================== *)

Lemma endsWith_spec (s suffix : string) :
  GranuleLocator.endsWith s suffix = true <-> exists pre, s = pre ++ suffix.
Proof.
  induction s as [|c s IH]; cbn [GranuleLocator.endsWith].
  - rewrite orb_false_r. split.
    + intros Heq. apply String.eqb_eq in Heq. now exists "".
    + intros [pre Hpre]. apply String.eqb_eq.
      destruct pre; [exact Hpre | discriminate].
  - split.
    + intros Hor. apply orb_prop in Hor as [Heq | Hrest].
      * apply String.eqb_eq in Heq. now exists "".
      * apply IH in Hrest as [pre ->]. now exists (String c pre).
    + intros [pre Hpre]. apply orb_true_iff.
      destruct pre as [|d pre].
      * left. now apply String.eqb_eq.
      * right. apply IH. injection Hpre as _ ->. now exists pre.
Qed.

Lemma dataLink_Some (granule : GranuleLocator.AtomGranule)
    (link : GranuleLocator.Link) :
  GranuleLocator.dataLink granule = Some link ->
  In link (GranuleLocator.links granule)
  /\ (exists pre, GranuleLocator.rel link = pre ++ "/data#")
  /\ GranuleLocator.inherited link = false.
Proof.
  unfold GranuleLocator.dataLink. intros Hfind.
  apply find_some in Hfind as [Hin Hok].
  apply andb_prop in Hok as [Hrel Hinh].
  split; [exact Hin|]. split; [now apply endsWith_spec|].
  now apply negb_true_iff.
Qed.

(** X13. Every granule the locator attaches to a source stands for an Atom
    granule of the response that has a link whose relation ends in
    [/data#] and that is not inherited: it carries that granule's id and
    title and the address of the first such link. *)
Theorem collectGranules_sound
    (atomGranules : list GranuleLocator.AtomGranule) (g : GranuleLocator.Granule) :
  In g (GranuleLocator.collectGranules atomGranules) ->
  exists granule link pre,
    In granule atomGranules
    /\ GranuleLocator.dataLink granule = Some link
    /\ In link (GranuleLocator.links granule)
    /\ GranuleLocator.rel link = pre ++ "/data#"
    /\ GranuleLocator.inherited link = false
    /\ g = {| GranuleLocator.granuleId := GranuleLocator.id granule;
              GranuleLocator.name := GranuleLocator.title granule;
              GranuleLocator.url := GranuleLocator.href link |}.
Proof.
  induction atomGranules as [|a rest IH]; [intros []|].
  cbn [GranuleLocator.collectGranules].
  destruct (GranuleLocator.dataLink a) as [link|] eqn:Hlink.
  - intros [<- | Hin].
    + destruct (dataLink_Some _ _ Hlink) as (Hin & [pre Hpre] & Hinh).
      exists a, link, pre. repeat split; auto. now left.
    + destruct (IH Hin) as (granule & l & pre & Hg & Hrest).
      exists granule, l, pre. split; [now right | exact Hrest].
  - intros Hin. destruct (IH Hin) as (granule & l & pre & Hg & Hrest).
    exists granule, l, pre. split; [now right | exact Hrest].
Qed.

Lemma collectGranules_nil_iff (atomGranules : list GranuleLocator.AtomGranule) :
  GranuleLocator.collectGranules atomGranules = []
  <-> forall granule, In granule atomGranules ->
                      GranuleLocator.dataLink granule = None.
Proof.
  induction atomGranules as [|a rest IH]; cbn [GranuleLocator.collectGranules].
  - split; [intros _ g [] | reflexivity].
  - destruct (GranuleLocator.dataLink a) as [link|] eqn:Hlink.
    + split; [discriminate|]. intros Hall.
      specialize (Hall a (or_introl eq_refl)). congruence.
    + rewrite IH. split.
      * intros Hall g [<- | Hg]; [exact Hlink | now apply Hall].
      * intros Hall g Hg. apply Hall. now right.
Qed.

(** X14. A resolved query is turned into the error "No matching granules
    found." exactly when no Atom granule of the response has a usable data
    link, which includes the empty response; in every other case granules
    are attached, at least one. The hits of the response are counted in
    both cases. *)
Theorem onResponse_rejects_iff_no_data_link
    (response : GranuleLocator.CmrResponse) :
  (GranuleLocator.attached (GranuleLocator.onResponse response)
   = inl (GranuleLocator.RequestValidationError "No matching granules found.")
   <-> forall granule, In granule (GranuleLocator.granules response) ->
                       GranuleLocator.dataLink granule = None)
  /\ (forall gs,
         GranuleLocator.attached (GranuleLocator.onResponse response) = inr gs ->
         gs <> []
         /\ gs = GranuleLocator.collectGranules (GranuleLocator.granules response))
  /\ GranuleLocator.addedHits (GranuleLocator.onResponse response)
     = GranuleLocator.hits response.
Proof.
  unfold GranuleLocator.onResponse.
  cbn [GranuleLocator.attached GranuleLocator.addedHits].
  destruct (GranuleLocator.collectGranules (GranuleLocator.granules response))
    as [|g gs] eqn:Hgs; cbn [List.length Nat.eqb].
  - split; [|split; [discriminate | reflexivity]].
    split; [intros _; now apply collectGranules_nil_iff | reflexivity].
  - split; [|split; [|reflexivity]].
    + split; [discriminate|]. intros Hall.
      apply collectGranules_nil_iff in Hall. congruence.
    + intros gs' [= <-]. split; [discriminate | reflexivity].
Qed.

Lemma awaitAll_resolved_responses (responses : list GranuleLocator.CmrResponse) :
  GranuleLocator.awaitAll
    (map GranuleLocator.settleSource (map inr responses))
  = if forallb
         (fun r => negb (List.length
                           (GranuleLocator.collectGranules (GranuleLocator.granules r))
                         =? 0)%nat)
         responses
    then None
    else Some (GranuleLocator.RequestValidationError "No matching granules found.").
Proof.
  induction responses as [|r rest IH]; [reflexivity|].
  cbn [map GranuleLocator.settleSource GranuleLocator.onResponse
         GranuleLocator.attached forallb].
  destruct (List.length (GranuleLocator.collectGranules (GranuleLocator.granules r))
            =? 0)%nat.
  - cbn [negb andb GranuleLocator.awaitAll]. reflexivity.
  - cbn [negb andb GranuleLocator.awaitAll]. exact IH.
Qed.

Lemma forallb_permutation {A} (p : A -> bool) (l l' : list A) :
  Permutation l l' -> forallb p l = forallb p l'.
Proof.
  induction 1; cbn [forallb]; try congruence.
  - destruct (p x), (p y); reflexivity.
Qed.

(** X15. When every query resolves, the order in which the responses arrive
    does not matter to what the middleware hands to [next]: nothing, if
    every response holds a usable granule, and otherwise the validation
    error "No matching granules found.", passed on once. *)
Theorem cmrGranuleLocator_all_queries_resolved
    (op : DataOperation) (responses arrived : list GranuleLocator.CmrResponse) :
  Permutation responses arrived ->
  GranuleLocator.cmrGranuleLocator (Some op) (map inr arrived)
  = (if forallb
          (fun r => negb (List.length
                            (GranuleLocator.collectGranules (GranuleLocator.granules r))
                          =? 0)%nat)
          responses
     then [GranuleLocator.Next None]
     else [GranuleLocator.Next
             (Some (GranuleLocator.RequestValidationError
                      "No matching granules found."))]).
Proof.
  intros Hperm. unfold GranuleLocator.cmrGranuleLocator.
  rewrite awaitAll_resolved_responses.
  rewrite <- (forallb_permutation _ _ _ Hperm).
  destruct (forallb _ responses); reflexivity.
Qed.

Lemma awaitAll_first_rejection {A}
    (pre post : list (GranuleLocator.Failure + A)) (e : GranuleLocator.Failure) :
  (forall q, In q pre -> exists a, q = inr a) ->
  GranuleLocator.awaitAll (pre ++ inl e :: post)%list = Some e.
Proof.
  induction pre as [|q pre IH]; intros Hpre; [reflexivity|].
  destruct (Hpre q (or_introl eq_refl)) as [a ->].
  cbn [app GranuleLocator.awaitAll]. apply IH.
  intros q' Hq'. apply Hpre. now right.
Qed.

(** X16. Whatever the request and however the queries end, the middleware
    calls [next]: at least once and at most twice. *)
Theorem cmrGranuleLocator_calls_next_once_or_twice
    (operation : option DataOperation)
    (queried : list (GranuleLocator.Failure + GranuleLocator.CmrResponse)) :
  (1 <= GranuleLocator.nextCalls (GranuleLocator.cmrGranuleLocator operation queried)
   <= 2)%nat.
Proof.
  unfold GranuleLocator.cmrGranuleLocator.
  destruct operation as [o|]; [|cbn; lia].
  destruct (GranuleLocator.awaitAll (map GranuleLocator.settleSource queried))
    as [[m|m|m|x]|]; cbn; lia.
Qed.

(** X17. [next] is called twice when the first promise to reject does so with
    an error that is neither a validation error nor a CMR error: the
    [catch] block logs it and passes a [ServerError] to [next] but does not
    return, so the closing [return next()] calls [next] again, without an
    argument. *)
Theorem cmrGranuleLocator_calls_next_twice_on_unexpected_error
    (pre post : list (GranuleLocator.Failure + GranuleLocator.CmrResponse))
    (op : DataOperation) (e : GranuleLocator.Failure) :
  (forall q, In q pre -> exists gs, GranuleLocator.settleSource q = inr gs) ->
  (forall m, e <> GranuleLocator.RequestValidationError m) ->
  (forall m, e <> GranuleLocator.CmrError m) ->
  GranuleLocator.cmrGranuleLocator (Some op) (pre ++ inl e :: post)%list
  = [ GranuleLocator.LoggerError e;
      GranuleLocator.Next
        (Some (GranuleLocator.ServerError "Failed to query the CMR"));
      GranuleLocator.Next None ]
  /\ GranuleLocator.nextCalls
       (GranuleLocator.cmrGranuleLocator (Some op) (pre ++ inl e :: post)%list)
     = 2%nat.
Proof.
  intros Hpre Hval Hcmr.
  assert (Hcalls : GranuleLocator.cmrGranuleLocator (Some op)
                     (pre ++ inl e :: post)%list
                   = [ GranuleLocator.LoggerError e;
                       GranuleLocator.Next
                         (Some (GranuleLocator.ServerError "Failed to query the CMR"));
                       GranuleLocator.Next None ]).
  { unfold GranuleLocator.cmrGranuleLocator.
    rewrite map_app. cbn [map GranuleLocator.settleSource].
    rewrite awaitAll_first_rejection.
    - destruct e as [m|m|m|x]; try reflexivity.
      + now destruct (Hval m).
      + now destruct (Hcmr m).
    - intros q Hq. apply in_map_iff in Hq as (q0 & <- & Hq0).
      exact (Hpre q0 Hq0). }
  split; [exact Hcalls | now rewrite Hcalls].
Qed.

Lemma collectGranules_sound_witness :
  exists granule link pre,
    In granule [MoreSamples.browseOnlyGranule; MoreSamples.usableGranule]
    /\ GranuleLocator.dataLink granule = Some link
    /\ In link (GranuleLocator.links granule)
    /\ GranuleLocator.rel link = pre ++ "/data#"
    /\ GranuleLocator.inherited link = false
    /\ {| GranuleLocator.granuleId := "G1-TEST";
          GranuleLocator.name := "granule-1";
          GranuleLocator.url := "https://example.com/g1.nc" |}
       = {| GranuleLocator.granuleId := GranuleLocator.id granule;
            GranuleLocator.name := GranuleLocator.title granule;
            GranuleLocator.url := GranuleLocator.href link |}.
Proof.
  apply (collectGranules_sound
           [MoreSamples.browseOnlyGranule; MoreSamples.usableGranule]).
  cbn. now left.
Defined.

Lemma cmrGranuleLocator_all_queries_resolved_witness :
  GranuleLocator.cmrGranuleLocator (Some Samples.plainOperation)
    (map inr [MoreSamples.emptyResponse; MoreSamples.usableResponse])
  = [GranuleLocator.Next
       (Some (GranuleLocator.RequestValidationError "No matching granules found."))].
Proof.
  refine (cmrGranuleLocator_all_queries_resolved Samples.plainOperation
            [MoreSamples.usableResponse; MoreSamples.emptyResponse]
            [MoreSamples.emptyResponse; MoreSamples.usableResponse] _).
  apply perm_swap.
Defined.

Lemma cmrGranuleLocator_calls_next_twice_on_unexpected_error_witness :
  GranuleLocator.cmrGranuleLocator (Some Samples.plainOperation)
    [inr MoreSamples.usableResponse;
     inl (GranuleLocator.Unexpected (TypeError "fetch failed"))]
  = [ GranuleLocator.LoggerError
        (GranuleLocator.Unexpected (TypeError "fetch failed"));
      GranuleLocator.Next
        (Some (GranuleLocator.ServerError "Failed to query the CMR"));
      GranuleLocator.Next None ]
  /\ GranuleLocator.nextCalls
       (GranuleLocator.cmrGranuleLocator (Some Samples.plainOperation)
          [inr MoreSamples.usableResponse;
           inl (GranuleLocator.Unexpected (TypeError "fetch failed"))])
     = 2%nat.
Proof.
  refine (cmrGranuleLocator_calls_next_twice_on_unexpected_error
            [inr MoreSamples.usableResponse] []
            Samples.plainOperation
            (GranuleLocator.Unexpected (TypeError "fetch failed")) _ _ _).
  - intros q [<- | []]. eexists. reflexivity.
  - discriminate.
  - discriminate.
Defined.

(* ================================================================== *)
(** ** The callback handed to the container *)
(* ================================================================== *)

Lemma stripPrefix_None_no_occurrence_at_start (p s : string) :
  Js.stripPrefix p s = None -> forall post, s <> p ++ post.
Proof.
  intros Hnone post ->. now rewrite stripPrefix_app in Hnone.
Qed.

(** [replace] without an occurrence of the pattern is the identity. *)
Lemma replace_absent (pattern replacement s : string) :
  ~ Js.includes s pattern ->
  Js.replace pattern replacement s = s.
Proof.
  induction s as [|c s IH]; intros Habsent.
  - cbn [Js.replace].
    destruct (Js.stripPrefix pattern "") as [rest|] eqn:Hstrip; [|reflexivity].
    exfalso. apply Habsent. exists "", rest.
    now apply stripPrefix_Some in Hstrip.
  - cbn [Js.replace].
    destruct (Js.stripPrefix pattern (String c s)) as [rest|] eqn:Hstrip.
    + exfalso. apply Habsent. exists "", rest.
      now apply stripPrefix_Some in Hstrip.
    + f_equal. apply IH. intros (pre & post & ->).
      apply Habsent. now exists (String c pre), post.
Qed.


Section ContainerFacts.

Variable serialize : DataOperation -> string.
Variable CALLBACK_HOST : option string.

(** The host name put in place of [localhost]. *)
Lemma callback_host_default :
  (CALLBACK_HOST = None \/ CALLBACK_HOST = Some "") ->
  match Js.truthy CALLBACK_HOST with
  | Some h => h
  | None => "host.docker.internal"
  end = "host.docker.internal".
Proof. intros [-> | ->]; reflexivity. Qed.


(** X19. A callback URL that does not mention [localhost] reaches the
    container as it is. *)
Theorem invokeAsync_keeps_callback_without_localhost
    (self : LocalDocker.Service) (inv : LocalDocker.Invocation) :
  LocalDocker.invokeAsync serialize CALLBACK_HOST self = Return inv ->
  ~ Js.includes (callback (LocalDocker.serviceOperation self)) "localhost" ->
  callback (LocalDocker.serviceOperation (LocalDocker.service inv))
  = callback (LocalDocker.serviceOperation self).
Proof.
  intros Hinv Habsent. unfold LocalDocker.invokeAsync in Hinv.
  destruct (if LocalDocker.configName self =? "podaac-cloud/l2-subsetter-service"
            then LocalDocker.dropFirstGranules (LocalDocker.serviceOperation self)
            else Return (LocalDocker.serviceOperation self))
    as [op|e] eqn:Hop; [|discriminate].
  assert (Hsame : callback op = callback (LocalDocker.serviceOperation self)).
  { destruct (LocalDocker.configName self =? "podaac-cloud/l2-subsetter-service").
    - unfold LocalDocker.dropFirstGranules in Hop.
      destruct (sources (LocalDocker.serviceOperation self)); [discriminate|].
      now injection Hop as <-.
    - now injection Hop as <-. }
  injection Hinv as <-.
  cbn [LocalDocker.service LocalDocker.serviceOperation callback setCallback].
  rewrite Hsame. now apply replace_absent.
Qed.


End ContainerFacts.


Lemma includes_occursIn (s pattern : string) :
  Js.includes s pattern -> occursIn pattern s = true.
Proof.
  intros (pre & post & ->).
  induction pre as [|c pre IH]; cbn [append].
  - destruct (pattern ++ post) as [|d rest] eqn:Hs.
    + destruct pattern; [reflexivity | discriminate].
    + cbn [occursIn]. now rewrite <- Hs, stripPrefix_app.
  - cbn [occursIn].
    destruct (Js.stripPrefix pattern (String c (pre ++ pattern ++ post)));
      [reflexivity | exact IH].
Qed.


Lemma invokeAsync_keeps_callback_without_localhost_witness :
  callback (LocalDocker.serviceOperation
              (LocalDocker.service MoreSamples.remoteInvocation))
  = "https://harmony.example.com/service/abc".
Proof.
  refine (invokeAsync_keeps_callback_without_localhost
            Samples.serializeCallback None MoreSamples.remoteService
            MoreSamples.remoteInvocation eq_refl _).
  intros Hin. apply includes_occursIn in Hin. discriminate.
Defined.

Example invokeAsync_podaac_drops_five_granules :
  exists inv,
    LocalDocker.invokeAsync Samples.serializeCallback None MoreSamples.podaacService
    = Return inv
    /\ map granules
         (sources (LocalDocker.serviceOperation (LocalDocker.service inv)))
       = [["G6"; "G7"]; ["H1"]].
Proof. eexists. split; reflexivity. Qed.

(* ================================================================== *)
(** ** More on the explanation and on disabled descriptors *)
(* ================================================================== *)

Section ExplanationFacts.

Context `{Imports}.

(** X21. The explanation names what was asked for. For a [listToText] that
    shows each of its items, the message contains the enumeration of the
    operation's collections and, for each option requested, its name:
    "variable subsetting" if a source names variables, "spatial subsetting"
    if there is a bounding rectangle, and "reformatting to" followed by the
    format when the operation names one that is not a wildcard. *)
Theorem unsupportedCombinationMessage_names_requested_options
    (op : DataOperation) (ctx : RequestContext) :
  (forall items x, In x items -> Js.includes (listToText items) x) ->
  Js.includes (unsupportedCombinationMessage op ctx)
    (listToText (map collection (sources op)))
  /\ (requiresVariableSubsetting op = true ->
      Js.includes (unsupportedCombinationMessage op ctx) "variable subsetting")
  /\ (requiresSpatialSubsetting op = true ->
      Js.includes (unsupportedCombinationMessage op ctx) "spatial subsetting")
  /\ (forall fmt,
         Js.truthy (outputFormat op) = Some fmt ->
         fmt <> "*" -> fmt <> "*/*" ->
         Js.includes (unsupportedCombinationMessage op ctx)
           ("reformatting to " ++ listToText [fmt])).
Proof.
  intros Hshow.
  assert (Hoption : forall x, In x (requestedOptions op ctx) ->
                              Js.includes (unsupportedCombinationMessage op ctx) x).
  { intros x Hx. unfold unsupportedCombinationMessage.
    destruct (requestedOptions op ctx) as [|o os] eqn:Hopts; [destruct Hx|].
    cbn [List.length Nat.ltb Nat.leb].
    apply includes_app_r, includes_app_l, Hshow, Hx. }
  split; [|split; [|split]].
  - unfold unsupportedCombinationMessage.
    destruct (0 <? List.length (requestedOptions op ctx))%nat.
    + apply includes_app_r, includes_app_r, includes_app_r, includes_app_l,
        includes_refl.
    + apply includes_app_r, includes_refl.
  - intros Hvar. apply Hoption. unfold requestedOptions. rewrite Hvar. now left.
  - intros Hbox. apply Hoption. unfold requestedOptions. rewrite Hbox.
    apply in_or_app. right. now left.
  - intros fmt Hfmt Hstar Hany. apply Hoption.
    unfold requestedOptions, reformattingFormats. rewrite Hfmt.
    cbn [option_map filter].
    destruct (String.eqb_spec fmt "*"); [contradiction|].
    destruct (String.eqb_spec fmt "*/*"); [contradiction|].
    cbn [negb andb Js.nonEmpty].
    apply in_or_app. right. apply in_or_app. right. now left.
Qed.

(** X22. A descriptor that the configuration disables, with [enabled: false]
    or [enabled: 'false'], is out of reach of selection: every candidate
    [chooseServiceConfig] returns over the loaded descriptors comes from
    an entry that is enabled. *)
Theorem selected_descriptor_is_enabled
    (ctx : RequestContext) (entries : list Loader.Entry) (w w' : World)
    (c : ServiceConfig) :
  chooseServiceConfig ctx (Loader.loadServiceConfigs entries) w
    = (Return (Some (Candidate c)), w') ->
  exists entry,
    In entry entries
    /\ Loader.config entry = c
    /\ Loader.enabled entry <> Loader.EnabledBoolean false
    /\ Loader.enabled entry <> Loader.EnabledString "false".
Proof.
  unfold chooseServiceConfig. rewrite chooseServiceConfigWith_run.
  destruct (applyFilters operationFilterFns ctx (Loader.loadServiceConfigs entries) w)
    as [r1 w1] eqn:Hrun.
  apply applyFilters_inv in Hrun as [_ [[msg ->] | [-> Hne]]]; [discriminate|].
  destruct (filter (survivesAllStages (operation w1))
              (Loader.loadServiceConfigs entries)) as [|c0 cs] eqn:Hsurv;
    [contradiction|].
  cbn [first]. intros [= -> _].
  assert (Hin : In c (Loader.loadServiceConfigs entries)).
  { assert (Hc : In c (filter (survivesAllStages (operation w1))
                         (Loader.loadServiceConfigs entries)))
      by (rewrite Hsurv; now left).
    now apply filter_In in Hc. }
  unfold Loader.loadServiceConfigs in Hin.
  apply in_map_iff in Hin as (entry & Hconfig & Hentry).
  apply filter_In in Hentry as [Hentry Henabled].
  exists entry. split; [exact Hentry|]. split; [exact Hconfig|].
  unfold Loader.isEnabled in Henabled.
  split; intros Heq; rewrite Heq in Henabled; discriminate.
Qed.

End ExplanationFacts.

Lemma unsupportedCombinationMessage_names_requested_options_witness :
  Js.includes
    (unsupportedCombinationMessage
       (setOutputFormat "image/png" Samples.boxOperation) Samples.anyOnly)
    "spatial subsetting".
Proof.
  pose proof (unsupportedCombinationMessage_names_requested_options
                (setOutputFormat "image/png" Samples.boxOperation) Samples.anyOnly
                reference_listToText_includes) as (_ & _ & Hbox & _).
  exact (Hbox eq_refl).
Defined.

Lemma selected_descriptor_is_enabled_witness :
  exists entry,
    In entry
      [ {| Loader.enabled := Loader.EnabledString "false";
           Loader.config := Samples.tiffService |};
        {| Loader.enabled := Loader.EnabledAbsent;
           Loader.config := Samples.pngService |} ]
    /\ Loader.config entry = Samples.pngService
    /\ Loader.enabled entry <> Loader.EnabledBoolean false
    /\ Loader.enabled entry <> Loader.EnabledString "false".
Proof.
  exact (selected_descriptor_is_enabled Samples.noContext
           [ {| Loader.enabled := Loader.EnabledString "false";
                Loader.config := Samples.tiffService |};
             {| Loader.enabled := Loader.EnabledAbsent;
                Loader.config := Samples.pngService |} ]
           (Samples.world Samples.plainOperation)
           (Samples.world Samples.plainOperation)
           Samples.pngService eq_refl).
Defined.
